(** * Éclat Dining API: a shallow embedding of [main.py] and [schemas.py]

    The handlers of [main.py] are embedded as computations in a small
    state-and-exception monad over a [world] (the document store, the process
    environment and the server clock).  Python dictionaries are finite maps
    from field names to JSON/BSON values; a Python [str] is represented by its
    UTF-8 encoding. *)

From Stdlib Require Import ZArith QArith String Ascii.
From Stdlib Require Import Floats.SpecFloat DecimalString.
From stdpp Require Import gmap strings list fin_maps sorting.

#[local] Open Scope string_scope.
#[local] Open Scope list_scope.

(** ** Python strings *)

(** [str.lower()] on the ASCII range.  Bytes of a multi-byte UTF-8 sequence
    are left alone; the class names of [schemas.py] are ASCII identifiers. *)
Definition lower_ascii (c : ascii) : ascii :=
  let n := nat_of_ascii c in
  if (65 <=? n)%nat && (n <=? 90)%nat then ascii_of_nat (n + 32) else c.

Fixpoint py_lower (s : string) : string :=
  match s with
  | EmptyString => EmptyString
  | String c r => String (lower_ascii c) (py_lower r)
  end.

(** A UTF-8 continuation byte, [10xxxxxx]: it belongs to the code point that
    the preceding lead byte started. *)
Definition is_cont (c : ascii) : bool :=
  let n := nat_of_ascii c in (128 <=? n)%nat && (n <? 192)%nat.

(** [len(s)]: the number of code points. *)
Fixpoint py_len (s : string) : nat :=
  match s with
  | EmptyString => 0
  | String c r => if is_cont c then py_len r else S (py_len r)
  end.

(** [s[:n]]: the first [n] code points. *)
Fixpoint py_prefix (n : nat) (s : string) : string :=
  match s with
  | EmptyString => EmptyString
  | String c r =>
      if is_cont c then String c (py_prefix n r)
      else match n with
           | O => EmptyString
           | S n' => String c (py_prefix n' r)
           end
  end.

(** [str(n)] for an integer. *)
Definition str_of_Z (z : Z) : string := NilZero.string_of_int (Z.to_int z).
Definition str_of_nat (n : nat) : string := str_of_Z (Z.of_nat n).

(** Truthiness of an optional string: [None] and [""] are falsy. *)
Definition truthy_str (o : option string) : bool :=
  match o with
  | Some (String _ _) => true
  | _ => false
  end.

(** Truthiness of an [Optional[bool]]. *)
Definition truthy_bool (o : option bool) : bool :=
  match o with
  | Some true => true
  | _ => false
  end.

(** ** Values and documents *)

(** A naive [datetime], counted in microseconds from [datetime.min]. *)
Definition datetime : Type := N.
Definition datetime_min : datetime := 0%N.

#[local] Set Warnings "-register-all".
Inductive value : Type :=
| VNone
| VBool (b : bool)
| VInt (z : Z)
| VFloat (f : spec_float)
| VStr (s : string)
| VDate (t : datetime)
| VOid (n : N)
| VList (l : list value)
| VDict (kv : list (string * value)).

Abbreviation doc := (gmap string value).

Definition float_eqb (a b : spec_float) : bool :=
  match a, b with
  | S754_zero s1, S754_zero s2 => Bool.eqb s1 s2
  | S754_infinity s1, S754_infinity s2 => Bool.eqb s1 s2
  | S754_nan, S754_nan => true
  | S754_finite s1 m1 e1, S754_finite s2 m2 e2 =>
      Bool.eqb s1 s2 && Pos.eqb m1 m2 && Z.eqb e1 e2
  | _, _ => false
  end.

Fixpoint value_eqb (a b : value) : bool :=
  match a, b with
  | VNone, VNone => true
  | VBool x, VBool y => Bool.eqb x y
  | VInt x, VInt y => Z.eqb x y
  | VFloat x, VFloat y => float_eqb x y
  | VStr x, VStr y => String.eqb x y
  | VDate x, VDate y => N.eqb x y
  | VOid x, VOid y => N.eqb x y
  | VList l1, VList l2 =>
      (fix go (l1 l2 : list value) : bool :=
         match l1, l2 with
         | [], [] => true
         | x :: r1, y :: r2 => value_eqb x y && go r1 r2
         | _, _ => false
         end) l1 l2
  | VDict l1, VDict l2 =>
      (fix go (l1 l2 : list (string * value)) : bool :=
         match l1, l2 with
         | [], [] => true
         | (k1, x) :: r1, (k2, y) :: r2 =>
             String.eqb k1 k2 && value_eqb x y && go r1 r2
         | _, _ => false
         end) l1 l2
  | _, _ => false
  end.

Definition opt_str_value (o : option string) : value :=
  match o with Some s => VStr s | None => VNone end.
Definition opt_int_value (o : option Z) : value :=
  match o with Some z => VInt z | None => VNone end.
Definition opt_bool_value (o : option bool) : value :=
  match o with Some b => VBool b | None => VNone end.
Definition opt_date_value (o : option datetime) : value :=
  match o with Some t => VDate t | None => VNone end.
Definition opt_dict_value (o : option (list (string * value))) : value :=
  match o with Some kv => VDict kv | None => VNone end.

(** ** Field readers used by the schema constructors

    Constructing a model from a dictionary, [Model(d...)], reads each
    declared field from the keyword arguments, falls back to the declared
    default when the key is absent, ignores undeclared keys and fails when a
    required key is missing or a constraint is broken.  The readers are exact
    on values of the declared type, which is what [model_dump] writes.
    pydantic's lax mode also converts some values of other types (an integer
    or a numeric string for a float, 0 and 1 for a boolean, an ISO string for
    a datetime); these conversions are not modelled, and a record holding such
    a value is outside the domain on which the constructors below stand for
    the schema.  No property stated in this file rests on how the readers
    treat such a value: the properties about listings are stated for stores
    whose records hold values of the declared types, or for listings that
    succeed. *)

Definition req_str (d : doc) (k : string) : option string :=
  match d !! k with
  | Some (VStr s) => Some s
  | _ => None
  end.

Definition opt_str (d : doc) (k : string) (dflt : option string)
  : option (option string) :=
  match d !! k with
  | None => Some dflt
  | Some VNone => Some None
  | Some (VStr s) => Some (Some s)
  | Some _ => None
  end.

Definition fld_bool (d : doc) (k : string) (dflt : bool) : option bool :=
  match d !! k with
  | None => Some dflt
  | Some (VBool b) => Some b
  | Some _ => None
  end.

Definition in_range (lo hi z : Z) : bool := (lo <=? z)%Z && (z <=? hi)%Z.

Definition opt_int (d : doc) (k : string) (dflt : option Z)
           (ok : Z -> bool) : option (option Z) :=
  match d !! k with
  | None => Some dflt
  | Some VNone => Some None
  | Some (VInt z) => if ok z then Some (Some z) else None
  | Some _ => None
  end.

Definition fld_int (d : doc) (k : string) (dflt : option Z)
           (ok : Z -> bool) : option Z :=
  match d !! k with
  | None => dflt
  | Some (VInt z) => if ok z then Some z else None
  | Some _ => None
  end.

Definition opt_date (d : doc) (k : string) : option (option datetime) :=
  match d !! k with
  | None => Some None
  | Some VNone => Some None
  | Some (VDate t) => Some (Some t)
  | Some _ => None
  end.

(** [Field(..., ge=0)] on a float: [x >= 0] in IEEE arithmetic, false on NaN. *)
Definition ge0 (x : spec_float) : bool := SFleb (S754_zero false) x.

Definition req_float_ge0 (d : doc) (k : string) : option spec_float :=
  match d !! k with
  | Some (VFloat x) => if ge0 x then Some x else None
  | _ => None
  end.

(** ** schemas.py *)

Inductive model_cls : Type :=
| MenuItem | Special | GalleryImage | Testimonial
| ContactMessage | Reservation | AdminUser | AnalyticsEvent.

Definition __name__ (c : model_cls) : string :=
  match c with
  | MenuItem => "MenuItem"
  | Special => "Special"
  | GalleryImage => "GalleryImage"
  | Testimonial => "Testimonial"
  | ContactMessage => "ContactMessage"
  | Reservation => "Reservation"
  | AdminUser => "AdminUser"
  | AnalyticsEvent => "AnalyticsEvent"
  end.

Module MenuItem.
Record t : Type := Build {
  name : string;
  description : option string;
  price : spec_float;
  category : string;
  image_url : option string;
  featured : bool;
  vegetarian : bool }.

(** The constraint of the schema: [price: float = Field(..., ge=0)]. *)
Definition valid (m : t) : Prop := ge0 (price m) = true.

Definition model_dump (m : t) : doc :=
  <["name" := VStr (name m)]>
  (<["description" := opt_str_value (description m)]>
  (<["price" := VFloat (price m)]>
  (<["category" := VStr (category m)]>
  (<["image_url" := opt_str_value (image_url m)]>
  (<["featured" := VBool (featured m)]>
  (<["vegetarian" := VBool (vegetarian m)]> ∅)))))).

(** The constructor call of [MenuItem] on the entries of [d]. *)
Definition construct (d : doc) : option t :=
  n ← req_str d "name";
  ds ← opt_str d "description" None;
  p ← req_float_ge0 d "price";
  c ← req_str d "category";
  i ← opt_str d "image_url" None;
  f ← fld_bool d "featured" false;
  v ← fld_bool d "vegetarian" true;
  Some (Build n ds p c i f v).
End MenuItem.

Module Special.
Record t : Type := Build {
  title : string;
  description : option string;
  discount_percent : option Z;
  valid_until : option datetime;
  hero_image_url : option string;
  cta_text : option string;
  active : bool }.

Definition model_dump (m : t) : doc :=
  <["title" := VStr (title m)]>
  (<["description" := opt_str_value (description m)]>
  (<["discount_percent" := opt_int_value (discount_percent m)]>
  (<["valid_until" := opt_date_value (valid_until m)]>
  (<["hero_image_url" := opt_str_value (hero_image_url m)]>
  (<["cta_text" := opt_str_value (cta_text m)]>
  (<["active" := VBool (active m)]> ∅)))))).

(** The constructor call of [Special] on the entries of [d]. *)
Definition construct (d : doc) : option t :=
  ti ← req_str d "title";
  ds ← opt_str d "description" None;
  dp ← opt_int d "discount_percent" None (in_range 0 100);
  vu ← opt_date d "valid_until";
  h ← opt_str d "hero_image_url" None;
  c ← opt_str d "cta_text" (Some "Reserve Now");
  a ← fld_bool d "active" true;
  Some (Build ti ds dp vu h c a).
End Special.

Module GalleryImage.
Record t : Type := Build {
  url : string;
  caption : option string;
  order : option Z }.

Definition model_dump (m : t) : doc :=
  <["url" := VStr (url m)]>
  (<["caption" := opt_str_value (caption m)]>
  (<["order" := opt_int_value (order m)]> ∅)).

(** The constructor call of [GalleryImage] on the entries of [d]. *)
Definition construct (d : doc) : option t :=
  u ← req_str d "url";
  c ← opt_str d "caption" None;
  o ← opt_int d "order" (Some 0%Z) (fun _ => true);
  Some (Build u c o).
End GalleryImage.

Module Testimonial.
Record t : Type := Build {
  name : string;
  rating : Z;
  comment : string;
  avatar_url : option string;
  featured : bool }.

Definition model_dump (m : t) : doc :=
  <["name" := VStr (name m)]>
  (<["rating" := VInt (rating m)]>
  (<["comment" := VStr (comment m)]>
  (<["avatar_url" := opt_str_value (avatar_url m)]>
  (<["featured" := VBool (featured m)]> ∅)))).

(** The constructor call of [Testimonial] on the entries of [d]. *)
Definition construct (d : doc) : option t :=
  n ← req_str d "name";
  r ← fld_int d "rating" (Some 5%Z) (in_range 1 5);
  c ← req_str d "comment";
  a ← opt_str d "avatar_url" None;
  f ← fld_bool d "featured" false;
  Some (Build n r c a f).
End Testimonial.

Module ContactMessage.
Record t : Type := Build {
  name : string;
  email : string;
  message : string }.

Definition model_dump (m : t) : doc :=
  <["name" := VStr (name m)]>
  (<["email" := VStr (email m)]>
  (<["message" := VStr (message m)]> ∅)).
End ContactMessage.

Module Reservation.
Record t : Type := Build {
  name : string;
  email : string;
  phone : option string;
  date : string;
  time : string;
  guests : Z;
  notes : option string;
  paid : bool;
  payment_reference : option string }.

(** The field names the schema declares, in declaration order. *)
Definition fields : list string :=
  ["name"; "email"; "phone"; "date"; "time"; "guests"; "notes"; "paid";
   "payment_reference"].

Definition model_dump (m : t) : doc :=
  <["name" := VStr (name m)]>
  (<["email" := VStr (email m)]>
  (<["phone" := opt_str_value (phone m)]>
  (<["date" := VStr (date m)]>
  (<["time" := VStr (time m)]>
  (<["guests" := VInt (guests m)]>
  (<["notes" := opt_str_value (notes m)]>
  (<["paid" := VBool (paid m)]>
  (<["payment_reference" := opt_str_value (payment_reference m)]> ∅)))))))).
End Reservation.

Module AnalyticsEvent.
Record t : Type := Build {
  type : string;
  path : option string;
  metadata : option (list (string * value));
  user_agent : option string;
  ip : option string }.

Definition model_dump (m : t) : doc :=
  <["type" := VStr (type m)]>
  (<["path" := opt_str_value (path m)]>
  (<["metadata" := opt_dict_value (metadata m)]>
  (<["user_agent" := opt_str_value (user_agent m)]>
  (<["ip" := opt_str_value (ip m)]> ∅)))).

(** The same event with another client-supplied [ip]. *)
Definition with_ip (ip' : option string) (m : t) : t :=
  Build (type m) (path m) (metadata m) (user_agent m) ip'.
End AnalyticsEvent.

(** ** main.py: request models declared next to the handlers *)

Module ReservationRequest.
(** [class ReservationRequest(Reservation)] adds one field. *)
Record t : Type := Build {
  base : Reservation.t;
  pay_now : option bool }.

Definition model_dump (m : t) : doc :=
  <["pay_now" := opt_bool_value (pay_now m)]> (Reservation.model_dump (base m)).
End ReservationRequest.

Module MenuImport.
Record t : Type := Build { items : list MenuItem.t }.
End MenuImport.

Module Request.
(** The part of the framework's request object the handlers read:
    [request.client], and its [host] when there is one. *)
Record t : Type := Build { client : option string }.
End Request.

(** ** The world the handlers run in *)

(** A connected database object.  [fault] holds the message of the error the
    server answers every operation with, when it does; [cut] is the number of
    documents of a bulk insert that reach the store before that error (none
    when the server is down from the start). *)
Record database : Type := Database {
  db_name : string;
  collections : gmap string (list doc);
  fault : option string;
  next_oid : N;
  cut : nat }.

(** [db] is the module-level handle of [database.py], [None] when no
    connection was configured; [environ] is the process environment; the
    [n]-th reading of the server clock returns [clock n]; [calls] records the
    collection names handed to the store, oldest first.  [unordered] is the
    interpreter's [list.sort] on keys that Python does not order totally,
    taken as it is: handed the keys, it answers the rank it leaves each
    position at, or nothing when a comparison raises. *)
Record world : Type := World {
  db : option database;
  environ : gmap string string;
  clock : nat -> datetime;
  ticks : nat;
  calls : list string;
  unordered : list value -> option (nat -> nat) }.

Inductive exn : Type :=
| HTTPException (status : Z) (detail : string)
| ValidationError (model : string)
| StoreUnavailable
| WriteFailure (msg : string)
| StoreError (msg : string)
| TypeError.

Inductive outcome (A : Type) : Type :=
| Ok (a : A)
| Raise (e : exn).
Arguments Ok {A} a.
Arguments Raise {A} e.

Definition M (A : Type) : Type := world -> outcome A * world.

#[export] Instance M_ret : MRet M := fun A a w => (Ok a, w).
#[export] Instance M_bind : MBind M := fun A B f m w =>
  match m w with
  | (Ok a, w') => f a w'
  | (Raise e, w') => (Raise e, w')
  end.

#[export] Instance M_fmap : FMap M := fun A B f m w =>
  match m w with
  | (Ok a, w') => (Ok (f a), w')
  | (Raise e, w') => (Raise e, w')
  end.

Definition raise {A : Type} (e : exn) : M A := fun w => (Raise e, w).
Definition gets {A : Type} (f : world -> A) : M A := fun w => (Ok (f w), w).
Definition modify (f : world -> world) : M unit := fun w => (Ok tt, f w).

Definition set_db (b : database) (w : world) : world :=
  World (Some b) (environ w) (clock w) (ticks w) (calls w) (unordered w).
Definition tick (w : world) : world :=
  World (db w) (environ w) (clock w) (S (ticks w)) (calls w) (unordered w).
Definition record_call (c : string) (w : world) : world :=
  World (db w) (environ w) (clock w) (ticks w) (calls w ++ [c]) (unordered w).

(** [datetime.utcnow()] *)
Definition utcnow : M datetime :=
  fun w => (Ok (clock w (ticks w)), tick w).

(** [os.getenv(k)] *)
Definition getenv (k : string) : M (option string) :=
  gets (fun w => environ w !! k).

(** ** The document store *)

(** An exact-match filter: every entry of [flt] is an entry of the record. *)
Definition matches (flt d : doc) : bool :=
  forallb (fun kv => match d !! kv.1 with
                     | Some w => value_eqb kv.2 w
                     | None => false
                     end) (map_to_list flt).

Definition records (b : database) (c : string) : list doc :=
  default [] (collections b !! c).

(** The store gives each inserted record its identifier.  The dictionaries
    the handlers insert come from [model_dump] and carry no ["_id"]. *)
Definition with_ids (n : N) (ds : list doc) : list doc :=
  imap (fun i d => <["_id" := VOid (n + N.of_nat i)]> d) ds.

Definition stored (b : database) (c : string) (ds : list doc) : database :=
  Database (db_name b)
           (<[c := records b c ++ with_ids (next_oid b) ds]> (collections b))
           (fault b)
           (next_oid b + N.of_nat (length ds))
           (cut b).

(** [db[c].insert_many(ds)]: an ordered bulk insert.  The documents are
    written one after the other; when the server fails, the error is raised
    and the documents written before it stay in the collection. *)
Definition insert_many (b : database) (c : string) (ds : list doc) : M unit :=
  match fault b with
  | Some msg =>
      _ ← match take (cut b) ds with
          | [] => mret tt
          | (_ :: _) as written => modify (set_db (stored b c written))
          end;
      raise (StoreError msg)
  | None => modify (set_db (stored b c ds))
  end.

(** [db.list_collection_names()] *)
Definition list_collection_names (b : database) : string + list string :=
  match fault b with
  | Some msg => inl msg
  | None => inr (map_to_list (collections b)).*1
  end.

(** The reference a write returns, [str(result.inserted_id)]. *)
Definition str_of_oid (n : N) : string := str_of_Z (Z.of_N n).

(** Modelled from the spec: the stamping step of [create_document], which
    sets a timestamp field to the current server time unless the payload
    already has it. *)
Definition stamp (k : string) (t : datetime) (d : doc) : doc :=
  match d !! k with
  | Some _ => d
  | None => <[k := VDate t]> d
  end.

(** Modelled from the spec: [create_document] of [database.py], which is not
    among the sources.  It stamps [created_at] and [updated_at] with the
    current server time unless the payload has them, inserts the record into
    the named collection and returns its reference as a string; it signals
    [StoreUnavailable] without a connection and [WriteFailure] when the
    insertion fails.  A schema instance is passed as its [model_dump]. *)
Definition create_document (collection_name : string) (data : doc) : M string :=
  _ ← modify (record_call collection_name);
  h ← gets db;
  match h with
  | None => raise StoreUnavailable
  | Some b =>
      now ← utcnow;
      let data := stamp "updated_at" now (stamp "created_at" now data) in
      match fault b with
      | Some msg => raise (WriteFailure msg)
      | None =>
          _ ← modify (set_db (stored b collection_name [data]));
          mret (str_of_oid (next_oid b))
      end
  end.

(** Modelled from the spec: [get_documents] of [database.py], which is not
    among the sources.  It returns the records of the named collection that
    match the filter exactly, in store order, at most [limit] of them when a
    limit is given; an unavailable store yields the empty list and no error. *)
Definition get_documents (collection_name : string) (flt : doc)
           (limit : option Z) : M (list doc) :=
  _ ← modify (record_call collection_name);
  h ← gets db;
  match h with
  | None => mret []
  | Some b =>
      match fault b with
      | Some _ => mret []
      | None =>
          let found := List.filter (matches flt) (records b collection_name) in
          mret (match limit with
                | None => found
                | Some n => take (Z.to_nat n) found
                end)
      end
  end.

(** ** main.py *)

(** [collection_name(model_cls)] *)
Definition collection_name (cls : model_cls) : string :=
  py_lower (__name__ cls).

(** A schema constructor raises on a record it rejects. *)
Definition validated {A : Type} (cls : model_cls) (o : option A) : M A :=
  match o with
  | Some a => mret a
  | None => raise (ValidationError (__name__ cls))
  end.

(** [lambda x: x.get("created_at", datetime.min)] *)
Definition sort_value (x : doc) : value :=
  default (VDate datetime_min) (x !! "created_at").

(** The order of sort keys.  [list.sort] compares the keys with [<].  Python
    orders datetimes among themselves, strings among themselves by code
    point (which is the order of their UTF-8 bytes), object identifiers among
    themselves, and numbers (integers, booleans and floats) among themselves
    by value; comparing keys of two of these kinds, or [None] or a dictionary
    with anything, raises [TypeError].  A NaN and an array get no key here:
    Python compares a NaN with any number and an array with some arrays, but
    not as a total order, and what the sort then returns depends on the
    comparisons its algorithm happens to make. *)
Inductive xnum : Type :=
| NegInf
| Fin (q : Q)
| PosInf.

Inductive skey : Type :=
| KDate (t : datetime)
| KStr (s : string)
| KOid (n : N)
| KNum (x : xnum).

(** The exact value of a float: sign, mantissa and binary exponent. *)
Definition float_num (f : spec_float) : option xnum :=
  match f with
  | S754_zero _ => Some (Fin (inject_Z 0))
  | S754_infinity s => Some (if s then NegInf else PosInf)
  | S754_nan => None
  | S754_finite s m e =>
      let n := if s then Zneg m else Zpos m in
      Some (Fin (match e with
                 | Z0 => inject_Z n
                 | Zpos k => inject_Z (n * 2 ^ Zpos k)
                 | Zneg k => Qmake n (2 ^ k)
                 end))
  end.

Definition sortable (v : value) : option skey :=
  match v with
  | VDate t => Some (KDate t)
  | VStr s => Some (KStr s)
  | VOid n => Some (KOid n)
  | VInt z => Some (KNum (Fin (inject_Z z)))
  | VBool b => Some (KNum (Fin (inject_Z (if b then 1 else 0))))
  | VFloat f => KNum <$> float_num f
  | VNone | VList _ | VDict _ => None
  end.

Definition xnum_compare (a b : xnum) : comparison :=
  match a, b with
  | NegInf, NegInf => Eq
  | NegInf, _ => Lt
  | _, NegInf => Gt
  | PosInf, PosInf => Eq
  | PosInf, _ => Gt
  | _, PosInf => Lt
  | Fin p, Fin q => Qcompare p q
  end.

(** Comparing two keys: the outcome, or nothing when Python raises. *)
Definition skey_compare (a b : skey) : option comparison :=
  match a, b with
  | KDate x, KDate y => Some (N.compare x y)
  | KStr x, KStr y => Some (String.compare x y)
  | KOid x, KOid y => Some (N.compare x y)
  | KNum x, KNum y => Some (xnum_compare x y)
  | _, _ => None
  end.

(** [a < b] on keys. *)
Definition skey_lt (a b : skey) : option bool :=
  match skey_compare a b with
  | Some Lt => Some true
  | Some _ => Some false
  | None => None
  end.

(** [list.sort(key=..., reverse=True)]: a stable sort of the decorated list,
    largest key first; records with equal keys keep their order.  A new
    element moves past those with a strictly larger key; a comparison that
    raises ends the sort. *)
Fixpoint insert_desc (x : skey * doc) (l : list (skey * doc))
  : option (list (skey * doc)) :=
  match l with
  | [] => Some [x]
  | y :: r =>
      match skey_lt x.1 y.1 with
      | Some true => (fun r' => y :: r') <$> insert_desc x r
      | Some false => Some (x :: y :: r)
      | None => None
      end
  end.

Fixpoint sort_desc (l : list (skey * doc)) : option (list (skey * doc)) :=
  match l with
  | [] => Some []
  | x :: r => sort_desc r ≫= insert_desc x
  end.

Definition is_number (v : value) : bool :=
  match v with
  | VInt _ | VBool _ | VFloat _ => true
  | _ => false
  end.

Definition is_array (v : value) : bool :=
  match v with
  | VList _ => true
  | _ => false
  end.

(** The records put in the order of the ranks of their positions, records of
    equal rank in their original order. *)
Fixpoint insert_rank (x : nat * doc) (l : list (nat * doc))
  : list (nat * doc) :=
  match l with
  | [] => [x]
  | y :: r => if (y.1 <? x.1)%nat then y :: insert_rank x r else x :: y :: r
  end.

Definition arrange (rank : nat -> nat) (out : list doc) : list doc :=
  (foldr insert_rank [] (zip (rank <$> seq 0 (length out)) out)).*2.

(** [out.sort(key=..., reverse=True)].  A list of at most one record is
    returned without any comparison.  On a longer list every key is compared
    with another one, so that the sort raises as soon as two keys are of two
    kinds or one is [None] or a dictionary.  Keys that are all numbers, a NaN
    among them, or all arrays are left to the interpreter: the sort then
    rearranges the list in a way this model does not fix, or raises. *)
Definition sort_created_desc (out : list doc) : M (list doc) :=
  match out with
  | [] | [_] => mret out
  | _ =>
      match mapM (fun x => sortable (sort_value x)) out with
      | Some keys =>
          match sort_desc (zip keys out) with
          | Some s => mret s.*2
          | None => raise TypeError
          end
      | None =>
          if forallb (fun x => is_number (sort_value x)) out
             || forallb (fun x => is_array (sort_value x)) out
          then
            o ← gets (fun w => unordered w (sort_value <$> out));
            match o with
            | Some rank => mret (arrange rank out)
            | None => raise TypeError
            end
          else raise TypeError
      end
  end.

Inductive response : Type :=
| Json (d : doc)
| JsonList (l : list doc)
| MenuItems (l : list MenuItem.t)
| Specials (l : list Special.t)
| GalleryImages (l : list GalleryImage.t)
| Testimonials (l : list Testimonial.t).

Inductive route : Type :=
| GET_root
| GET_api_menu (category : option string) (featured : option bool)
| GET_api_specials (active : option bool)
| GET_api_gallery
| GET_api_testimonials
| POST_api_contact (payload : ContactMessage.t)
| POST_api_reservations (payload : ReservationRequest.t)
| POST_api_analytics (event : AnalyticsEvent.t) (request : Request.t)
| POST_admin_import_menu (payload : MenuImport.t)
| GET_admin_reservations (limit : option Z)
| GET_test.

Section Handlers.

(** Two functions of Python's [datetime] module, taken as they are:
    [d.isoformat()] and [int(d.timestamp())]. *)
Variable isoformat : datetime -> string.
Variable timestamp_int : datetime -> Z.

Definition read_root : M doc :=
  mret (<["message" := VStr "Éclat Dining API running"]> ∅).

Definition get_menu (category : option string) (featured : option bool)
  : M (list MenuItem.t) :=
  let flt : doc := ∅ in
  let flt :=
    if truthy_str category
    then <["category" := opt_str_value category]> flt
    else flt in
  let flt :=
    match featured with
    | Some f => <["featured" := VBool f]> flt
    | None => flt
    end in
  items ← get_documents (collection_name MenuItem) flt None;
  mapM (fun it => validated MenuItem (MenuItem.construct (delete "_id" it)))
       items.

Definition get_specials (active : option bool) : M (list Special.t) :=
  let flt : doc :=
    if truthy_bool active then <["active" := VBool true]> ∅ else ∅ in
  docs ← get_documents (collection_name Special) flt None;
  mapM (fun d => validated Special (Special.construct (delete "_id" d))) docs.

(** The default of the [active] parameter. *)
Definition get_specials_default : option bool := Some true.

Definition get_gallery : M (list GalleryImage.t) :=
  docs ← get_documents (collection_name GalleryImage) ∅ None;
  mapM (fun d => validated GalleryImage
                   (GalleryImage.construct (delete "_id" d))) docs.

Definition get_testimonials : M (list Testimonial.t) :=
  docs ← get_documents (collection_name Testimonial)
                       (<["featured" := VBool true]> ∅) None;
  mapM (fun d => validated Testimonial
                   (Testimonial.construct (delete "_id" d))) docs.

Definition submit_contact (payload : ContactMessage.t) : M doc :=
  ref ← create_document (collection_name ContactMessage)
                        (ContactMessage.model_dump payload);
  mret (<["status" := VStr "ok"]> (<["reference" := VStr ref]> ∅)).

Definition submit_reservation (payload : ReservationRequest.t) : M doc :=
  payment_reference ←
    (if truthy_bool (ReservationRequest.pay_now payload)
     then now ← utcnow; mret (Some ("PAY-" +:+ str_of_Z (timestamp_int now)))
     else mret None);
  let data := ReservationRequest.model_dump payload in
  let data :=
    <["payment_reference" := opt_str_value payment_reference]> data in
  ref ← create_document (collection_name Reservation) data;
  mret (<["status" := VStr "ok"]>
        (<["reference" := VStr ref]>
        (<["payment_reference" := opt_str_value payment_reference]> ∅))).

Definition track_analytics (event : AnalyticsEvent.t) (request : Request.t)
  : M doc :=
  let data := AnalyticsEvent.model_dump event in
  let data := <["ip" := opt_str_value (Request.client request)]> data in
  now ← utcnow;
  let data := <["received_at" := VStr (isoformat now)]> data in
  ref ← create_document (collection_name AnalyticsEvent) data;
  mret (<["status" := VStr "ok"]> (<["ref" := VStr ref]> ∅)).

Definition import_menu (payload : MenuImport.t) : M doc :=
  h ← gets db;
  match h with
  | None => raise (HTTPException 500 "Database not available")
  | Some b =>
      let coll := collection_name MenuItem in
      _ ← modify (record_call coll);
      docs ← mapM (fun it =>
                     let d := MenuItem.model_dump it in
                     t1 ← utcnow;
                     let d := <["created_at" := VDate t1]> d in
                     t2 ← utcnow;
                     let d := <["updated_at" := VDate t2]> d in
                     mret d)
                  (MenuImport.items payload);
      _ ← match docs with
          | [] => mret tt
          | _ :: _ => insert_many b coll docs
          end;
      mret (<["message" :=
               VStr ("Imported " +:+ str_of_nat (length docs)
                     +:+ " menu items")]> ∅)
  end.

Definition list_reservations (limit : Z) : M (list doc) :=
  docs ← get_documents (collection_name Reservation) ∅ (Some limit);
  let out := delete "_id" <$> docs in
  sort_created_desc out.

(** The default of the [limit] parameter. *)
Definition list_reservations_default : Z := 100.

Definition set_or_not (o : option string) : value :=
  VStr (if truthy_str o then "✅ Set" else "❌ Not Set").

(** The statements of the outer [try] block are total apart from
    [db.list_collection_names()], which the inner [try] guards; the outer
    [except] clause has nothing to catch.  A database object has a [name],
    so [hasattr(db, 'name')] holds. *)
Definition test_database : M doc :=
  let response : doc :=
    <["backend" := VStr "✅ Running"]>
    (<["database" := VStr "❌ Not Available"]>
    (<["database_url" := VNone]>
    (<["database_name" := VNone]>
    (<["connection_status" := VStr "Not Connected"]>
    (<["collections" := VList []]> ∅))))) in
  h ← gets db;
  response ←
    match h with
    | Some b =>
        let response := <["database" := VStr "✅ Available"]> response in
        url ← getenv "DATABASE_URL";
        let response := <["database_url" := set_or_not url]> response in
        let response := <["database_name" := VStr (db_name b)]> response in
        let response :=
          <["connection_status" := VStr "Connected"]> response in
        match list_collection_names b with
        | inr collections =>
            let response :=
              <["collections" := VList (VStr <$> take 10 collections)]>
                response in
            mret (<["database" := VStr "✅ Connected & Working"]> response)
        | inl e =>
            mret (<["database" :=
                     VStr ("⚠️  Connected but Error: " +:+ py_prefix 50 e)]>
                    response)
        end
    | None =>
        mret (<["database" := VStr "⚠️  Available but not initialized"]>
                response)
    end;
  url ← getenv "DATABASE_URL";
  let response := <["database_url" := set_or_not url]> response in
  nm ← getenv "DATABASE_NAME";
  let response := <["database_name" := set_or_not nm]> response in
  mret response.

(** The routing table: the decorators of [main.py], with the defaults of
    the query parameters. *)
Definition dispatch (r : route) : M response :=
  match r with
  | GET_root => Json <$> read_root
  | GET_api_menu category featured => MenuItems <$> get_menu category featured
  | GET_api_specials active =>
      Specials <$> get_specials (match active with
                                 | Some a => Some a
                                 | None => get_specials_default
                                 end)
  | GET_api_gallery => GalleryImages <$> get_gallery
  | GET_api_testimonials => Testimonials <$> get_testimonials
  | POST_api_contact payload => Json <$> submit_contact payload
  | POST_api_reservations payload => Json <$> submit_reservation payload
  | POST_api_analytics event request => Json <$> track_analytics event request
  | POST_admin_import_menu payload => Json <$> import_menu payload
  | GET_admin_reservations limit =>
      JsonList <$> list_reservations (default list_reservations_default limit)
  | GET_test => Json <$> test_database
  end.

(** The schema whose collection a route works on. *)
Definition schema_of (r : route) : option model_cls :=
  match r with
  | GET_root | GET_test => None
  | GET_api_menu _ _ | POST_admin_import_menu _ => Some MenuItem
  | GET_api_specials _ => Some Special
  | GET_api_gallery => Some GalleryImage
  | GET_api_testimonials => Some Testimonial
  | POST_api_contact _ => Some ContactMessage
  | POST_api_reservations _ | GET_admin_reservations _ => Some Reservation
  | POST_api_analytics _ _ => Some AnalyticsEvent
  end.

End Handlers.

(** ** Vocabulary of the properties *)

(** The records of collection [c] a read can see: those of the store when it
    is connected and answering, none otherwise. *)
Definition visible (w : world) (c : string) : list doc :=
  match db w with
  | Some b => match fault b with
              | None => records b c
              | Some _ => []
              end
  | None => []
  end.

Definition limited (limit : option Z) (l : list doc) : list doc :=
  match limit with
  | None => l
  | Some n => take (Z.to_nat n) l
  end.

(** Stripping the identifier of each record and rebuilding it through its
    schema: the list of models, or the validation error of the first record
    the schema rejects. *)
Definition construct_all {A : Type} (cls : model_cls)
           (construct : doc -> option A) (docs : list doc) : outcome (list A) :=
  match mapM (fun d => construct (delete "_id" d)) docs with
  | Some l => Ok l
  | None => Raise (ValidationError (__name__ cls))
  end.

(** What a record holds beside the identifier and the two timestamps the
    server adds. *)
Definition payload_of (d : doc) : doc :=
  delete "_id" (delete "created_at" (delete "updated_at" d)).

(** A record holds the string [s], or the boolean [b], under the key [k]. *)
Definition has_str (d : doc) (k s : string) : bool :=
  match d !! k with
  | Some (VStr x) => String.eqb x s
  | _ => false
  end.

Definition has_bool (d : doc) (k : string) (b : bool) : bool :=
  match d !! k with
  | Some (VBool x) => Bool.eqb x b
  | _ => false
  end.

(** The selection [GET /api/menu] is meant to make: the category is compared
    only when one was given and is not empty, [featured] whenever it was
    given. *)
Definition menu_selected (category : option string) (featured : option bool)
           (d : doc) : bool :=
  match category with
  | Some (String a s) => has_str d "category" (String a s)
  | _ => true
  end
  &&
  match featured with
  | Some f => has_bool d "featured" f
  | None => true
  end.

(** The field names [MenuItem] and [Special] declare, and the constraint of
    [Special]: a [discount_percent], when given, between 0 and 100. *)
Definition menu_item_fields : list string :=
  ["name"; "description"; "price"; "category"; "image_url"; "featured";
   "vegetarian"].

Definition special_fields : list string :=
  ["title"; "description"; "discount_percent"; "valid_until";
   "hero_image_url"; "cta_text"; "active"].

Definition special_valid (m : Special.t) : Prop :=
  match Special.discount_percent m with
  | Some z => in_range 0 100 z = true
  | None => True
  end.


Definition holds_special (d : doc) (m : Special.t) : Prop :=
  special_valid m /\
  Forall (fun k => d !! k = Special.model_dump m !! k) special_fields.

(** The selection of [GET /api/menu], read on a menu item. *)
Definition item_selected (category : option string) (featured : option bool)
           (m : MenuItem.t) : bool :=
  match category with
  | Some (String a s) => String.eqb (MenuItem.category m) (String a s)
  | _ => true
  end
  &&
  match featured with
  | Some f => Bool.eqb (MenuItem.featured m) f
  | None => true
  end.

(** A record the [MenuItem] schema rejects whatever conversion it tries: a
    required key is missing, or the price is a float that fails [ge=0]. *)
Definition surely_rejected (d : doc) : Prop :=
  d !! "name" = None \/ d !! "price" = None \/ d !! "category" = None \/
  exists x, d !! "price" = Some (VFloat x) /\ ge0 x = false.

(** The selection [GET /api/specials] is meant to make. *)
Definition special_selected (active : option bool) (d : doc) : bool :=
  match active with
  | Some true => has_bool d "active" true
  | _ => true
  end.

(** The dictionaries the loop of [import_menu] builds when the clock has
    been read [t] times before: each item's dump with the two timestamps, each
    from a reading of its own. *)
Fixpoint stamped (clk : nat -> datetime) (t : nat) (items : list MenuItem.t)
  : list doc :=
  match items with
  | [] => []
  | it :: r =>
      <["updated_at" := VDate (clk (S t))]>
        (<["created_at" := VDate (clk t)]> (MenuItem.model_dump it))
      :: stamped clk (S (S t)) r
  end.

Definition with_environ (env : gmap string string) (w : world) : world :=
  World (db w) env (clock w) (ticks w) (calls w) (unordered w).

(** The keys of the diagnostics snapshot that report a status. *)
Definition status_fields : list string :=
  ["backend"; "database"; "database_url"; "database_name";
   "connection_status"].

Definition advance (n : nat) (w : world) : world :=
  World (db w) (environ w) (clock w) (n + ticks w) (calls w) (unordered w).

(** The records [GET /admin/reservations] sorts: what the read returns, each
    without its identifier. *)
Definition fetched_reservations (limit : Z) (w : world) : list doc :=
  delete "_id" <$> limited (Some limit) (visible w "reservation").

(** [key(x) < key(y)] on two records: the outcome, or nothing when Python
    raises. *)
Definition doc_lt (x y : doc) : option bool :=
  match sortable (sort_value x), sortable (sort_value y) with
  | Some a, Some b => skey_lt a b
  | _, _ => None
  end.

(** No record is followed by one with a larger key. *)
Definition keys_desc (out : list doc) : Prop :=
  forall i j x y,
    i < j -> out !! i = Some x -> out !! j = Some y ->
    doc_lt x y = Some false.

(** The keys can all be compared with each other: they are of one kind. *)
Definition kind (a : skey) : nat :=
  match a with
  | KDate _ => 0
  | KStr _ => 1
  | KOid _ => 2
  | KNum _ => 3
  end.


(** The order the sort leaves the decorated list in. *)
Definition key_ge (a b : skey * doc) : Prop := skey_lt a.1 b.1 = Some false.

(** Sorted by [created_at], latest first. *)
Definition created_desc (out : list doc) : Prop :=
  forall i j x y s t,
    i < j -> out !! i = Some x -> out !! j = Some y ->
    x !! "created_at" = Some (VDate s) -> y !! "created_at" = Some (VDate t) ->
    (t <= s)%N.


(** Every record without [created_at] comes after every record stamped later
    than [datetime.min]. *)
Definition missing_after_later (out : list doc) : Prop :=
  forall i j x y t,
    out !! i = Some x -> out !! j = Some y ->
    x !! "created_at" = None -> y !! "created_at" = Some (VDate t) ->
    (datetime_min < t)%N ->
    j < i.

(** ** Sample data *)

Definition sample_db : database := Database "eclat" ∅ None 0 0.

Definition sample_world : world :=
  World (Some sample_db) ∅ (fun n => N.of_nat (S n)) 0 [] (fun _ => None).

Definition margherita : MenuItem.t :=
  MenuItem.Build "Margherita" None (S754_finite false 19 (-1)) "Pizzas" None
                 false true.

Definition sample_booking : ReservationRequest.t :=
  ReservationRequest.Build
    (Reservation.Build "Asha" "asha@example.org" None "2025-03-01" "19:30" 2
                       None false None)
    (Some true).

Definition sample_event : AnalyticsEvent.t :=
  AnalyticsEvent.Build "page_view" (Some "/menu") None None (Some "10.0.0.1").

(** Two stored reservations: the first has no [created_at], the second is
    stamped [datetime.min], that is 0001-01-01T00:00:00. *)
Definition unstamped_booking : doc :=
  <["_id" := VOid 0]> (<["name" := VStr "walk-in"]> ∅).

Definition earliest_booking : doc :=
  <["_id" := VOid 1]>
    (<["name" := VStr "first"]> (<["created_at" := VDate datetime_min]> ∅)).

Definition earliest_world : world :=
  World (Some (Database "eclat"
                 (<["reservation" := [unstamped_booking; earliest_booking]]> ∅)
                 None 2 0))
        ∅ (fun n => N.of_nat (S n)) 0 [] (fun _ => None).







(** A menu of two dishes and a list of two specials, as stored. *)
Definition tiramisu : MenuItem.t :=
  MenuItem.Build "Tiramisu" (Some "Classic") (S754_finite false 13 (-1))
                 "Desserts" None true true.


Definition happy_hour : Special.t :=
  Special.Build "Happy hour" None (Some 20%Z) None None (Some "Reserve Now")
                true.

Definition last_winter : Special.t :=
  Special.Build "Winter menu" None None (Some 5%N) None None false.

Definition specials_world : world :=
  World (Some (Database "eclat"
     (<["special" :=
         [<["_id" := VOid 0]> (Special.model_dump last_winter);
          <["_id" := VOid 1]> (Special.model_dump happy_hour)]]> ∅)
     None 2 0))
   ∅ (fun n => N.of_nat (S n)) 0 [] (fun _ => None).

(** ** Vocabulary of the further properties *)

(** The constraint of [Testimonial]: a [rating] between 1 and 5. *)
Definition testimonial_valid (m : Testimonial.t) : Prop :=
  in_range 1 5 (Testimonial.rating m) = true.

(** The routes declared with [@app.get]. *)
Definition is_get (r : route) : bool :=
  match r with
  | GET_root | GET_api_menu _ _ | GET_api_specials _ | GET_api_gallery
  | GET_api_testimonials | GET_admin_reservations _ | GET_test => true
  | _ => false
  end.

(** The sort key of a record when it is a datetime: its [created_at], or
    [datetime.min] when it has none. *)
Definition created_key (x : doc) : option datetime :=
  match x !! "created_at" with
  | None => Some datetime_min
  | Some (VDate t) => Some t
  | Some _ => None
  end.

(** The sort key of a record is the datetime [k]. *)
Definition key_is (k : datetime) (d : doc) : bool :=
  match created_key d with
  | Some k' => (k' =? k)%N
  | None => false
  end.

(** The test [key_is k], read on the key of the decorated list. *)
Definition is_date (k : datetime) (a : skey) : bool :=
  match a with
  | KDate t => (t =? k)%N
  | _ => false
  end.

(** A clock that never runs backwards. *)
Definition monotone (clk : nat -> datetime) : Prop :=
  forall i j, i <= j -> (clk i <= clk j)%N.

Definition with_db_name (n : string) (b : database) : database :=
  Database n (collections b) (fault b) (next_oid b) (cut b).

Definition sample_contact : ContactMessage.t :=
  ContactMessage.Build "Asha" "asha@example.org" "Table for two?".

(** What a request may do to the database handle: leave it as it was, or,
    when the store is connected and answering and the request succeeds, append
    records to the one collection [c]. *)
Definition unchanged_or_appended {A : Type} (c : string)
           (res : outcome A * world) (w : world) : Prop :=
  db res.2 = db w \/
  exists b ds a,
    db w = Some b /\ fault b = None /\ res.1 = Ok a /\
    db res.2 = Some (stored b c ds).

(** A world without a database handle. *)
Definition offline_world : world :=
  World None ∅ (fun n => N.of_nat (S n)) 0 [] (fun _ => None).

(** The same booking request with another client-supplied
    [payment_reference]. *)
Definition with_payment_reference (pr : option string)
           (m : ReservationRequest.t) : ReservationRequest.t :=
  let r := ReservationRequest.base m in
  ReservationRequest.Build
    (Reservation.Build (Reservation.name r) (Reservation.email r)
       (Reservation.phone r) (Reservation.date r) (Reservation.time r)
       (Reservation.guests r) (Reservation.notes r) (Reservation.paid r) pr)
    (ReservationRequest.pay_now m).

(** A store with two testimonials, the second one not featured. *)
Definition review_world : world :=
  World (Some (Database "eclat"
     (<["testimonial" :=
         [<["_id" := VOid 0]>
            (Testimonial.model_dump
               (Testimonial.Build "Asha" 5 "Superb" None true));
          <["_id" := VOid 1]>
            (Testimonial.model_dump
               (Testimonial.Build "Ravi" 3 "Fine" None false))]]> ∅)
     None 2 0))
   ∅ (fun n => N.of_nat (S n)) 0 [] (fun _ => None).

(** A store whose server refuses every operation. *)
Definition failing_db : database :=
  Database "eclat" ∅ (Some "connection refused") 0 0.

Definition failing_world : world :=
  World (Some failing_db) ∅ (fun n => N.of_nat (S n)) 0 [] (fun _ => None).

(** A store whose connection is lost after the first document of a bulk
    insert. *)
Definition dropping_db : database :=
  Database "eclat" ∅ (Some "connection lost") 0 1.

Definition dropping_world : world :=
  World (Some dropping_db) ∅ (fun n => N.of_nat (S n)) 0 [] (fun _ => None).

(** A store with two reservations: one without [created_at], one whose
    [created_at] was written as a string. *)
Definition iso_booking : doc :=
  <["_id" := VOid 1]>
    (<["name" := VStr "imported"]>
       (<["created_at" := VStr "2025-03-01T19:30:00"]> ∅)).

Definition clashing_world : world :=
  World (Some (Database "eclat"
                 (<["reservation" := [unstamped_booking; iso_booking]]> ∅)
                 None 2 0))
        ∅ (fun n => N.of_nat (S n)) 0 [] (fun _ => None).

(** A store with one gallery image. *)
Definition gallery_world : world :=
  World (Some (Database "eclat"
     (<["galleryimage" :=
         [<["_id" := VOid 0]>
            (GalleryImage.model_dump
               (GalleryImage.Build "https://example.org/a.jpg" None (Some 1%Z)))
         ]]> ∅)
     None 1 0))
   ∅ (fun n => N.of_nat (S n)) 0 [] (fun _ => None).

(** ** Exact-match filters *)

Lemma value_eqb_bool (b : bool) (w : value) :
  value_eqb (VBool b) w = true <-> w = VBool b.
Proof.
  destruct w; simpl; try (split; [discriminate | discriminate]).
  rewrite Bool.eqb_true_iff. split; congruence.
Qed.

Lemma value_eqb_str (s : string) (w : value) :
  value_eqb (VStr s) w = true <-> w = VStr s.
Proof.
  destruct w; simpl; try (split; [discriminate | discriminate]).
  rewrite String.eqb_eq. split; congruence.
Qed.

Lemma matches_spec (flt d : doc) :
  matches flt d = true <->
  forall k v, flt !! k = Some v ->
              exists w, d !! k = Some w /\ value_eqb v w = true.
Proof.
  unfold matches. rewrite forallb_forall. split.
  - intros H k v Hk.
    specialize (H (k, v)). simpl in H.
    destruct (d !! k) as [w|] eqn:E.
    + exists w. split; [done|]. apply H.
      apply list_elem_of_In, elem_of_map_to_list, Hk.
    + exfalso. enough (false = true) by discriminate. apply H.
      apply list_elem_of_In, elem_of_map_to_list, Hk.
  - intros H [k v] Hin. simpl.
    apply list_elem_of_In, elem_of_map_to_list in Hin.
    destruct (H k v Hin) as (w & -> & Hw). exact Hw.
Qed.

Lemma matches_empty (d : doc) : matches ∅ d = true.
Proof. apply matches_spec. intros k v Hk. by rewrite lookup_empty in Hk. Qed.

Lemma has_bool_true (d : doc) (k : string) (b : bool) :
  has_bool d k b = true <-> d !! k = Some (VBool b).
Proof.
  unfold has_bool. destruct (d !! k) as [[]|]; try (split; discriminate).
  rewrite Bool.eqb_true_iff. split; congruence.
Qed.

Lemma has_str_true (d : doc) (k s : string) :
  has_str d k s = true <-> d !! k = Some (VStr s).
Proof.
  unfold has_str. destruct (d !! k) as [[]|]; try (split; discriminate).
  rewrite String.eqb_eq. split; congruence.
Qed.

Lemma bool_eq_iff (a b : bool) : (a = true <-> b = true) -> a = b.
Proof. destruct a, b; intros [H1 H2]; auto; try (symmetry; auto). Qed.

Lemma matches_bool (d : doc) (k : string) (b : bool) :
  matches (<[k := VBool b]> ∅) d = has_bool d k b.
Proof.
  apply bool_eq_iff. rewrite matches_spec, has_bool_true. split.
  - intros H. destruct (H k (VBool b)) as (w & Hw & E).
    + apply lookup_insert_eq.
    + apply value_eqb_bool in E. congruence.
  - intros H k' v Hk'. apply lookup_insert_Some in Hk' as [[<- <-]|[_ Hk']].
    + exists (VBool b). split; [done|]. by apply value_eqb_bool.
    + by rewrite lookup_empty in Hk'.
Qed.

Lemma matches_insert (flt d : doc) (k : string) (v : value) :
  flt !! k = None ->
  matches (<[k := v]> flt) d =
  match d !! k with Some w => value_eqb v w | None => false end
  && matches flt d.
Proof.
  intros Hfresh. apply bool_eq_iff.
  rewrite andb_true_iff, !matches_spec. split.
  - intros H. split.
    + destruct (H k v) as (w & Hw & E); [apply lookup_insert_eq|].
      by rewrite Hw.
    + intros k' v' Hk'. apply H. rewrite lookup_insert_ne; [done|].
      intros ->. congruence.
  - intros [H1 H2] k' v' Hk'.
    apply lookup_insert_Some in Hk' as [[<- <-]|[_ Hk']]; [|by apply H2].
    destruct (d !! k) as [w|]; [|discriminate]. by exists w.
Qed.

Lemma value_eqb_has_bool (d : doc) (k : string) (b : bool) :
  match d !! k with Some w => value_eqb (VBool b) w | None => false end
  = has_bool d k b.
Proof.
  unfold has_bool. destruct (d !! k) as [[| x | | | | | | |]|]; simpl; try done.
  by destruct x, b.
Qed.

Lemma value_eqb_has_str (d : doc) (k s : string) :
  match d !! k with Some w => value_eqb (VStr s) w | None => false end
  = has_str d k s.
Proof.
  unfold has_str. destruct (d !! k) as [[]|]; simpl; try done.
  apply String.eqb_sym.
Qed.

(** ** The adapter and the list-read loop *)

Ltac run_monad :=
  unfold mbind, M_bind, mret, M_ret, fmap, M_fmap, gets, modify, raise, utcnow,
    getenv; simpl.

Lemma bind_run {A B : Type} (m : M A) (f : A -> M B) (w : world) :
  (m ≫= f) w =
  match m w with
  | (Ok a, w') => f a w'
  | (Raise e, w') => (Raise e, w')
  end.
Proof. done. Qed.

Lemma fmap_full {A B : Type} (f : A -> B) (m : M A) (w : world) :
  (f <$> m) w =
  match m w with
  | (Ok a, w') => (Ok (f a), w')
  | (Raise e, w') => (Raise e, w')
  end.
Proof. done. Qed.

Lemma get_documents_spec (c : string) (flt : doc) (limit : option Z) (w : world) :
  get_documents c flt limit w =
  (Ok (limited limit (List.filter (matches flt) (visible w c))), record_call c w).
Proof.
  unfold get_documents, visible. run_monad.
  destruct (db w) as [b|]; simpl.
  - destruct (fault b); simpl; [|done].
    by destruct limit as [n|]; simpl; rewrite ?take_nil.
  - by destruct limit as [n|]; simpl; rewrite ?take_nil.
Qed.

Lemma visible_record_call (c c' : string) (w : world) :
  visible (record_call c w) c' = visible w c'.
Proof. done. Qed.

Lemma mapM_validated {A : Type} (cls : model_cls) (construct : doc -> option A)
      (docs : list doc) (w : world) :
  mapM (fun d => validated cls (construct (delete "_id" d))) docs w =
  (construct_all cls construct docs, w).
Proof.
  unfold construct_all. induction docs as [|d docs IH]; [done|].
  cbn [mapM]. rewrite bind_run. unfold validated at 1.
  destruct (construct (delete "_id" d)) as [a|]; simpl; [|done].
  rewrite bind_run, IH.
  destruct (mapM (M := option) _ docs) as [l|]; simpl; done.
Qed.

Lemma get_menu_spec (category : option string) (featured : option bool)
      (w : world) :
  get_menu category featured w =
  (construct_all MenuItem MenuItem.construct
     (List.filter (menu_selected category featured) (visible w "menuitem")),
   record_call "menuitem" w).
Proof.
  unfold get_menu. rewrite bind_run, get_documents_spec.
  rewrite mapM_validated. simpl limited. do 2 f_equal.
  apply filter_ext. intros d. unfold menu_selected.
  destruct category as [[|a s]|], featured as [f|]; simpl;
    rewrite ?matches_insert, ?matches_empty, ?andb_true_r,
      ?value_eqb_has_bool, ?value_eqb_has_str; try done.
  apply andb_comm.
Qed.

Lemma get_specials_spec (active : option bool) (w : world) :
  get_specials active w =
  (construct_all Special Special.construct
     (List.filter (special_selected active) (visible w "special")),
   record_call "special" w).
Proof.
  unfold get_specials. rewrite bind_run, get_documents_spec.
  rewrite mapM_validated. simpl limited. do 2 f_equal.
  apply filter_ext. intros d. unfold special_selected.
  destruct active as [[|]|]; simpl;
    rewrite ?matches_bool, ?matches_empty; done.
Qed.

(** ** The bulk import *)

Lemma construct_stored (m : MenuItem.t) (i c u : value) :
  MenuItem.valid m ->
  MenuItem.construct
    (delete "_id" (<["_id" := i]> (<["updated_at" := u]>
       (<["created_at" := c]> (MenuItem.model_dump m))))) = Some m.
Proof.
  intros Hv. unfold MenuItem.valid in Hv.
  destruct m as [n ds p ca im f v]. simpl in Hv.
  unfold MenuItem.construct, req_str, opt_str, req_float_ge0, fld_bool,
    MenuItem.model_dump.
  simplify_map_eq. rewrite Hv. by destruct ds, im.
Qed.

Lemma payload_of_stored (m : MenuItem.t) (i c u : value) :
  payload_of (<["_id" := i]> (<["updated_at" := u]>
     (<["created_at" := c]> (MenuItem.model_dump m)))) = MenuItem.model_dump m.
Proof.
  unfold payload_of, MenuItem.model_dump. apply map_eq. intros k.
  destruct (decide (k = "_id")) as [->|]; [by simplify_map_eq|].
  destruct (decide (k = "created_at")) as [->|]; [by simplify_map_eq|].
  destruct (decide (k = "updated_at")) as [->|]; [by simplify_map_eq|].
  by rewrite lookup_delete_ne, lookup_delete_ne, lookup_delete_ne,
    lookup_insert_ne, lookup_insert_ne, lookup_insert_ne.
Qed.

Lemma import_loop (items : list MenuItem.t) (w : world) :
  mapM (fun it =>
          t1 ← utcnow;
          t2 ← utcnow;
          mret (<["updated_at" := VDate t2]>
                  (<["created_at" := VDate t1]> (MenuItem.model_dump it))))
       items w
  = (Ok (stamped (clock w) (ticks w) items), advance (2 * length items) w).
Proof.
  revert w. induction items as [|it items IH]; intros w.
  - by destruct w.
  - cbn [mapM]. rewrite bind_run. rewrite bind_run. unfold utcnow at 1.
    rewrite bind_run. unfold utcnow at 1. cbn [mret M_ret].
    rewrite bind_run, IH. simpl. unfold advance. simpl.
    do 3 f_equal. lia.
Qed.

Lemma length_stamped (clk : nat -> datetime) (t : nat) (items : list MenuItem.t) :
  length (stamped clk t items) = length items.
Proof. revert t. induction items; intros t; simpl; auto. Qed.

Lemma records_stored (b : database) (c : string) (ds : list doc) :
  records (stored b c ds) c = records b c ++ with_ids (next_oid b) ds.
Proof. unfold stored, records at 1. cbn [collections]. by rewrite lookup_insert_eq. Qed.

Lemma records_stored_ne (b : database) (c c' : string) (ds : list doc) :
  c <> c' -> records (stored b c ds) c' = records b c'.
Proof.
  intros Hne. unfold stored, records. cbn [collections].
  by rewrite lookup_insert_ne.
Qed.

Lemma import_menu_ok (payload : MenuImport.t) (w : world) (b : database) :
  db w = Some b -> fault b = None ->
  exists resp w' b',
    import_menu payload w = (Ok resp, w') /\
    db w' = Some b' /\ fault b' = None /\
    records b' "menuitem" =
      (records b "menuitem" ++
       with_ids (next_oid b)
                (stamped (clock w) (ticks w) (MenuImport.items payload))) /\
    next_oid b' = (next_oid b + N.of_nat (length (MenuImport.items payload)))%N /\
    ticks w' = 2 * length (MenuImport.items payload) + ticks w /\
    clock w' = clock w.
Proof.
  intros Hdb Hf. unfold import_menu. rewrite bind_run. unfold gets at 1.
  rewrite Hdb. rewrite bind_run. unfold modify at 1. rewrite bind_run.
  rewrite import_loop. simpl ticks. simpl clock.
  destruct (MenuImport.items payload) as [|it items] eqn:E.
  - simpl. do 3 eexists. split; [reflexivity|]. simpl.
    rewrite Hdb. repeat split; try done.
    + unfold with_ids. simpl. by rewrite app_nil_r.
    + simpl. lia.
  - cbn [stamped]. rewrite bind_run. unfold insert_many. rewrite Hf.
    unfold modify at 1. cbn [mret M_ret].
    do 3 eexists. split; [reflexivity|]. cbn [db set_db advance].
    repeat split; try done.
    + apply records_stored.
    + simpl. by rewrite length_stamped.
Qed.

Lemma filter_all {A : Type} (p : A -> bool) (l : list A) :
  (forall x, p x = true) -> List.filter p l = l.
Proof.
  intros Hp. induction l as [|x l IH]; simpl; [done|].
  by rewrite Hp, IH.
Qed.

Lemma construct_all_Ok {A : Type} (cls : model_cls) (construct : doc -> option A)
      (docs : list doc) (l : list A) :
  construct_all cls construct docs = Ok l <->
  Forall2 (fun d m => construct (delete "_id" d) = Some m) docs l.
Proof.
  unfold construct_all. rewrite <- mapM_Some.
  destruct (mapM _ docs); split; intros H; try discriminate; congruence.
Qed.

Lemma imported_construct (g : nat -> N) (clk : nat -> datetime) (t : nat)
      (items : list MenuItem.t) :
  Forall MenuItem.valid items ->
  Forall2 (fun d m => MenuItem.construct (delete "_id" d) = Some m)
          (imap (fun i d => <["_id" := VOid (g i)]> d) (stamped clk t items))
          items.
Proof.
  intros Hv. revert g t.
  induction Hv as [|it items Hit _ IH]; intros g t; simpl; constructor.
  - by apply construct_stored.
  - apply (IH (g ∘ S)).
Qed.

Lemma imported_payload (g : nat -> N) (clk : nat -> datetime) (t : nat)
      (items : list MenuItem.t) :
  payload_of <$> imap (fun i d => <["_id" := VOid (g i)]> d) (stamped clk t items)
  = MenuItem.model_dump <$> items.
Proof.
  revert g t. induction items as [|it items IH]; intros g t; simpl; [done|].
  rewrite payload_of_stored. f_equal. apply (IH (g ∘ S)).
Qed.

(** ** Properties of the handlers *)

(** C1: in a connected, answering store whose menu could be listed before,
    importing valid menu items and then listing the menu without filters
    returns the earlier listing followed by the imported items themselves:
    each returned record equals its payload in every field, the identifier
    and the two timestamps of the stored record left aside. *)
Theorem import_then_list_roundtrip
        (payload : MenuImport.t) (w : world) (b : database)
        (old : list MenuItem.t) :
  db w = Some b -> fault b = None ->
  Forall MenuItem.valid (MenuImport.items payload) ->
  (get_menu None None w).1 = Ok old ->
  exists resp w',
    import_menu payload w = (Ok resp, w') /\
    (get_menu None None w').1 = Ok (old ++ MenuImport.items payload).
Proof.
  intros Hdb Hf Hv Hold.
  destruct (import_menu_ok payload w b Hdb Hf)
    as (resp & w' & b' & Hrun & Hdb' & Hf' & Hrec & _).
  exists resp, w'. split; [exact Hrun|].
  rewrite get_menu_spec in Hold |- *. simpl in Hold |- *.
  unfold visible in Hold |- *. rewrite Hdb, Hf in Hold. rewrite Hdb', Hf', Hrec.
  rewrite filter_all in Hold |- * by done.
  apply construct_all_Ok in Hold. apply construct_all_Ok.
  apply Forall2_app; [exact Hold|]. by apply imported_construct.
Qed.

(** C8: importing the same payload of N items twice inserts N records each
    time.  After the second run the collection holds what it held before,
    then the N records of the first run, then N more of the second; both
    batches carry the dumps of the payload's items, so nothing was merged or
    replaced. *)
Theorem import_twice_keeps_both_copies
        (payload : MenuImport.t) (w : world) (b : database) :
  db w = Some b -> fault b = None ->
  exists resp1 w1 resp2 w2 new1 new2,
    import_menu payload w = (Ok resp1, w1) /\
    import_menu payload w1 = (Ok resp2, w2) /\
    visible w1 "menuitem" = visible w "menuitem" ++ new1 /\
    visible w2 "menuitem" = visible w "menuitem" ++ new1 ++ new2 /\
    payload_of <$> new1 = MenuItem.model_dump <$> MenuImport.items payload /\
    payload_of <$> new2 = MenuItem.model_dump <$> MenuImport.items payload /\
    length new1 = length (MenuImport.items payload) /\
    length new2 = length (MenuImport.items payload).
Proof.
  intros Hdb Hf.
  destruct (import_menu_ok payload w b Hdb Hf)
    as (resp1 & w1 & b1 & Hrun1 & Hdb1 & Hf1 & Hrec1 & _).
  destruct (import_menu_ok payload w1 b1 Hdb1 Hf1)
    as (resp2 & w2 & b2 & Hrun2 & Hdb2 & Hf2 & Hrec2 & _).
  exists resp1, w1, resp2, w2. do 2 eexists.
  split; [exact Hrun1|]. split; [exact Hrun2|].
  unfold visible. rewrite Hdb, Hf, Hdb1, Hf1, Hdb2, Hf2, Hrec2, Hrec1.
  split; [reflexivity|]. split; [by rewrite <- app_assoc|].
  unfold with_ids. rewrite !imported_payload, !length_imap, !length_stamped.
  done.
Qed.

Lemma Forall_filter_true {A : Type} (p : A -> bool) (l : list A) :
  Forall (fun x => p x = true) (List.filter p l).
Proof.
  apply Forall_forall. intros x Hx.
  apply list_elem_of_In in Hx. by apply filter_In in Hx as [_ ?].
Qed.

Lemma Forall2_transfer {A B : Type} (R : A -> B -> Prop) (P : A -> Prop)
      (Q : B -> Prop) (l : list A) (k : list B) :
  (forall x y, R x y -> P x -> Q y) ->
  Forall2 R l k -> Forall P l -> Forall Q k.
Proof.
  intros HR H2. induction H2 as [|x y l k Hxy _ IH]; intros HP; [constructor|].
  apply Forall_cons in HP as [Hx HP]. constructor; eauto.
Qed.



Lemma construct_holds_special (d : doc) (m : Special.t) :
  holds_special d m -> Special.construct (delete "_id" d) = Some m.
Proof.
  intros [Hv H]. unfold special_fields in H.
  repeat (apply Forall_cons in H as [? H]).
  unfold Special.construct, req_str, opt_str, opt_int, opt_date, fld_bool.
  rewrite !lookup_delete_ne by done.
  repeat match goal with
         | E : d !! _ = _ |- _ => rewrite E; clear E
         end.
  destruct m as [ti ds dp vu h c a]. unfold special_valid in Hv. simpl in Hv.
  unfold Special.model_dump. simplify_map_eq.
  destruct ds, dp as [z|], vu, h, c; simpl; rewrite ?Hv; done.
Qed.

Lemma selected_holds_special (d : doc) (m : Special.t) (active : option bool) :
  holds_special d m ->
  special_selected active d =
  if truthy_bool active then Special.active m else true.
Proof.
  intros [_ H]. unfold special_fields in H.
  repeat (apply Forall_cons in H as [? H]).
  unfold special_selected, has_bool.
  destruct active as [[|]|]; simpl; try done.
  repeat match goal with
         | E : d !! _ = _ |- _ => rewrite E; clear E
         end.
  unfold Special.model_dump. simplify_map_eq. by destruct (Special.active m).
Qed.

Lemma listing_of_held {A : Type} (cls : model_cls) (construct : doc -> option A)
      (holds : doc -> A -> Prop) (sel : doc -> bool) (msel : A -> bool)
      (docs : list doc) (ms : list A) :
  (forall d m, holds d m -> construct (delete "_id" d) = Some m) ->
  (forall d m, holds d m -> sel d = msel m) ->
  Forall2 holds docs ms ->
  construct_all cls construct (List.filter sel docs)
  = Ok (List.filter msel ms).
Proof.
  intros Hc Hs H. apply construct_all_Ok.
  induction H as [|d m docs ms Hd _ IH]; simpl; [constructor|].
  rewrite (Hs d m Hd). destruct (msel m); [|exact IH].
  constructor; [by apply Hc | exact IH].
Qed.


(** C2: in a store whose special records hold specials, [GET /api/specials]
    without the [active] parameter returns exactly the specials whose
    [active] field is true, and with [active=false] it returns every special
    of the collection, active or not, in store order. *)
Theorem specials_default_differs_from_false
        (isoformat : datetime -> string) (timestamp_int : datetime -> Z)
        (w : world) (specials : list Special.t) :
  Forall2 holds_special (visible w "special") specials ->
  (dispatch isoformat timestamp_int (GET_api_specials None) w).1 =
    Ok (Specials (List.filter Special.active specials)) /\
  (dispatch isoformat timestamp_int (GET_api_specials (Some false)) w).1 =
    Ok (Specials specials).
Proof.
  intros H.
  assert (forall active,
            (get_specials active w).1 =
            Ok (List.filter
                  (fun m => if truthy_bool active then Special.active m
                            else true) specials)) as Hrun.
  { intros active. rewrite get_specials_spec. cbn [fst].
    apply (listing_of_held Special Special.construct holds_special).
    - apply construct_holds_special.
    - intros d m Hd. by apply selected_holds_special.
    - exact H. }
  cbn [dispatch]. unfold get_specials_default. rewrite !fmap_full.
  pose proof (Hrun (Some true)) as H1. pose proof (Hrun (Some false)) as H2.
  cbn [truthy_bool] in H1, H2. rewrite filter_all in H2 by done.
  destruct (get_specials (Some true) w) as [[l1|e1] w1];
    destruct (get_specials (Some false) w) as [[l2|e2] w2];
    cbn [fst] in *; try discriminate.
  injection H1 as ->. injection H2 as ->. by split.
Qed.

(** ** The create-only handlers *)

Lemma create_document_spec (c : string) (data : doc) (w : world) :
  create_document c data w =
  match db w with
  | None => (Raise StoreUnavailable, record_call c w)
  | Some b =>
      let now := clock w (ticks w) in
      match fault b with
      | Some msg => (Raise (WriteFailure msg), tick (record_call c w))
      | None =>
          (Ok (str_of_oid (next_oid b)),
           set_db (stored b c [stamp "updated_at" now
                                 (stamp "created_at" now data)])
                  (tick (record_call c w)))
      end
  end.
Proof.
  unfold create_document. run_monad.
  destruct (db w) as [b|]; simpl; [|done]. by destruct (fault b).
Qed.

Lemma stamp_fresh (k : string) (t : datetime) (d : doc) :
  d !! k = None -> stamp k t d = <[k := VDate t]> d.
Proof. intros H. unfold stamp. by rewrite H. Qed.

(** C4: whenever [POST /api/reservations] answers, the [payment_reference]
    of the answer is a string if [pay_now] was true and null if it was false,
    null or left out; the handler fails to answer only when the store is not
    connected or rejects the write. *)
Theorem reservation_payment_reference
        (timestamp_int : datetime -> Z) (payload : ReservationRequest.t)
        (w : world) :
  match (submit_reservation timestamp_int payload w).1 with
  | Ok resp =>
      match ReservationRequest.pay_now payload with
      | Some true => exists s, resp !! "payment_reference" = Some (VStr s)
      | Some false | None => resp !! "payment_reference" = Some VNone
      end
  | Raise e =>
      (db w = None /\ e = StoreUnavailable) \/
      (exists b msg, db w = Some b /\ fault b = Some msg /\ e = WriteFailure msg)
  end.
Proof.
  unfold submit_reservation. rewrite bind_run.
  destruct (ReservationRequest.pay_now payload) as [[|]|];
    cbn [truthy_bool]; rewrite ?bind_run; unfold utcnow; cbn [mret M_ret];
    rewrite bind_run, create_document_spec; cbn [db tick record_call];
    (destruct (db w) as [b|]; [|by left]);
    (destruct (fault b) as [msg|] eqn:Ef; cbn [fst];
     [right; by exists b, msg|]); cbn [mret M_ret fst].
  - eexists. by simplify_map_eq.
  - by simplify_map_eq.
  - by simplify_map_eq.
Qed.

Lemma stamps_fresh (t : datetime) (d : doc) :
  d !! "created_at" = None -> d !! "updated_at" = None ->
  stamp "updated_at" t (stamp "created_at" t d) =
  <["updated_at" := VDate t]> (<["created_at" := VDate t]> d).
Proof.
  intros Hc Hu. unfold stamp. rewrite Hc.
  by rewrite lookup_insert_ne, Hu.
Qed.

Lemma reservation_record_fields (i u c p q : value) (r : Reservation.t) :
  let rec := <["_id" := i]> (<["updated_at" := u]> (<["created_at" := c]>
               (<["payment_reference" := p]> (<["pay_now" := q]>
                  (Reservation.model_dump r))))) in
  rec !! "pay_now" = Some q /\
  Forall (fun k => is_Some (rec !! k)) Reservation.fields /\
  Forall (fun k => k <> "payment_reference" ->
                   rec !! k = Reservation.model_dump r !! k)
         Reservation.fields.
Proof.
  intros rec. subst rec. unfold Reservation.fields.
  split; [reflexivity|]. split.
  - repeat (apply Forall_cons; split;
            [unfold is_Some; eexists; reflexivity|]).
    constructor.
  - repeat (apply Forall_cons; split;
            [first [intros _; reflexivity | intros H; by destruct H]|]).
    constructor.
Qed.

(** C9: in a connected, answering store [POST /api/reservations] appends one
    record to the reservation collection; the record holds [pay_now] as the
    request gave it, and every field the [Reservation] schema declares, each
    with the request's value apart from [payment_reference], which the
    handler sets. *)
Theorem reservation_record_keeps_pay_now
        (timestamp_int : datetime -> Z) (payload : ReservationRequest.t)
        (w : world) (b : database) :
  db w = Some b -> fault b = None ->
  exists resp w' b' rec,
    submit_reservation timestamp_int payload w = (Ok resp, w') /\
    db w' = Some b' /\
    records b' "reservation" = records b "reservation" ++ [rec] /\
    rec !! "pay_now" = Some (opt_bool_value (ReservationRequest.pay_now payload)) /\
    Forall (fun k => is_Some (rec !! k)) Reservation.fields /\
    Forall (fun k => k <> "payment_reference" ->
                     rec !! k =
                     Reservation.model_dump (ReservationRequest.base payload) !! k)
           Reservation.fields.
Proof.
  intros Hdb Hf. unfold submit_reservation. rewrite bind_run.
  destruct (truthy_bool (ReservationRequest.pay_now payload));
    rewrite ?bind_run; unfold utcnow; cbn [mret M_ret];
    rewrite bind_run, create_document_spec; cbn [db tick record_call];
    rewrite Hdb; cbn zeta; rewrite Hf;
    rewrite stamps_fresh by reflexivity;
    (do 4 eexists; split; [reflexivity|]; cbn [db set_db];
     split; [reflexivity|]; split;
     [change (collection_name Reservation) with "reservation";
      rewrite records_stored; reflexivity|]);
    apply reservation_record_fields.
Qed.

Lemma analytics_ip_overwritten (v : value) (ip' : option string)
      (event : AnalyticsEvent.t) :
  <["ip" := v]> (AnalyticsEvent.model_dump (AnalyticsEvent.with_ip ip' event))
  = <["ip" := v]> (AnalyticsEvent.model_dump event).
Proof.
  unfold AnalyticsEvent.model_dump, AnalyticsEvent.with_ip. simpl.
  rewrite !(insert_insert_ne _ "ip") by done.
  by rewrite !insert_insert_eq.
Qed.

(** C5: in a connected, answering store [POST /api/analytics] appends one
    record whose [ip] is the address of the request's client (null when the
    request has none) and whose [received_at] is the server clock's reading,
    in ISO format; the run, and with it the stored record, is the same
    whatever [ip] the event body carried. *)
Theorem analytics_ip_and_receipt_time
        (isoformat : datetime -> string) (event : AnalyticsEvent.t)
        (request : Request.t) (w : world) (b : database) :
  db w = Some b -> fault b = None ->
  exists resp w' b' rec,
    track_analytics isoformat event request w = (Ok resp, w') /\
    db w' = Some b' /\
    records b' "analyticsevent" = records b "analyticsevent" ++ [rec] /\
    rec !! "ip" = Some (opt_str_value (Request.client request)) /\
    rec !! "received_at" = Some (VStr (isoformat (clock w (ticks w)))) /\
    forall ip',
      track_analytics isoformat (AnalyticsEvent.with_ip ip' event) request w
      = (Ok resp, w').
Proof.
  intros Hdb Hf.
  assert (forall e,
    track_analytics isoformat e request w =
    (Ok (<["status" := VStr "ok"]>
           (<["ref" := VStr (str_of_oid (next_oid b))]> ∅)),
     set_db (stored b "analyticsevent"
               [<["updated_at" := VDate (clock w (S (ticks w)))]>
                  (<["created_at" := VDate (clock w (S (ticks w)))]>
                     (<["received_at" := VStr (isoformat (clock w (ticks w)))]>
                        (<["ip" := opt_str_value (Request.client request)]>
                           (AnalyticsEvent.model_dump e))))])
            (tick (record_call "analyticsevent" (tick w))))) as Hrun.
  { intros e. unfold track_analytics. rewrite bind_run. unfold utcnow.
    rewrite bind_run, create_document_spec. cbn [db tick record_call].
    rewrite Hdb. cbn zeta. rewrite Hf.
    by rewrite stamps_fresh by reflexivity. }
  do 4 eexists. split; [apply Hrun|]. cbn [db set_db].
  split; [reflexivity|]. split; [rewrite records_stored; reflexivity|].
  split; [reflexivity|]. split; [reflexivity|].
  intros ip'. rewrite Hrun. by rewrite analytics_ip_overwritten.
Qed.

(** ** Diagnostics *)

Lemma py_len_prefix (n : nat) (s : string) : py_len (py_prefix n s) <= n.
Proof.
  revert n. induction s as [|c r IH]; intros n; simpl; [lia|].
  destruct (is_cont c) eqn:E; simpl; rewrite ?E; [apply IH|].
  destruct n as [|n]; simpl; rewrite ?E; [lia|].
  specialize (IH n). lia.
Qed.

Lemma test_database_run (w : world) :
  test_database w =
  (Ok (<["database_name" := set_or_not (environ w !! "DATABASE_NAME")]>
      (<["database_url" := set_or_not (environ w !! "DATABASE_URL")]>
      (match db w with
       | Some b =>
           match fault b with
           | Some e =>
               <["database" :=
                  VStr ("⚠️  Connected but Error: " +:+ py_prefix 50 e)]>
           | None =>
               fun r =>
                 <["database" := VStr "✅ Connected & Working"]>
                 (<["collections" :=
                     VList (VStr <$> take 10 (map_to_list (collections b)).*1)]>
                    r)
           end
             (<["connection_status" := VStr "Connected"]>
             (<["database_name" := VStr (db_name b)]>
             (<["database_url" := set_or_not (environ w !! "DATABASE_URL")]>
             (<["database" := VStr "✅ Available"]>
             (<["backend" := VStr "✅ Running"]>
             (<["database" := VStr "❌ Not Available"]>
             (<["database_url" := VNone]>
             (<["database_name" := VNone]>
             (<["connection_status" := VStr "Not Connected"]>
             (<["collections" := VList []]> ∅))))))))))
       | None =>
           <["database" := VStr "⚠️  Available but not initialized"]>
             (<["backend" := VStr "✅ Running"]>
             (<["database" := VStr "❌ Not Available"]>
             (<["database_url" := VNone]>
             (<["database_name" := VNone]>
             (<["connection_status" := VStr "Not Connected"]>
             (<["collections" := VList []]> ∅))))))
       end))),
   w).
Proof.
  unfold test_database, list_collection_names. run_monad.
  destruct (db w) as [b|]; simpl; [|done]. by destruct (fault b).
Qed.

Lemma length_take_le {A : Type} (n : nat) (l : list A) : length (take n l) <= n.
Proof. rewrite length_take. lia. Qed.

(** C7: in every world, the store being connected, failing or absent,
    [GET /test] returns a snapshot and changes nothing.  Its five status
    fields are strings; [database_url] and [database_name] are one of two
    fixed texts chosen by whether the variable is set to something, so that
    environments agreeing on that give the same snapshot; at most ten
    collection names are listed; and the text of a store error appears cut to
    its first fifty characters. *)
Theorem diagnostics_never_raise (w : world) :
  exists resp,
    test_database w = (Ok resp, w) /\
    Forall (fun k => exists s, resp !! k = Some (VStr s)) status_fields /\
    resp !! "database_url" = Some (set_or_not (environ w !! "DATABASE_URL")) /\
    resp !! "database_name" = Some (set_or_not (environ w !! "DATABASE_NAME")) /\
    (exists names, resp !! "collections" = Some (VList names) /\
                   length names <= 10) /\
    (forall b msg, db w = Some b -> fault b = Some msg ->
       resp !! "database" =
         Some (VStr ("⚠️  Connected but Error: " +:+ py_prefix 50 msg)) /\
       py_len (py_prefix 50 msg) <= 50) /\
    (forall env,
       truthy_str (env !! "DATABASE_URL")
         = truthy_str (environ w !! "DATABASE_URL") ->
       truthy_str (env !! "DATABASE_NAME")
         = truthy_str (environ w !! "DATABASE_NAME") ->
       (test_database (with_environ env w)).1 = Ok resp).
Proof.
  eexists. split; [apply test_database_run|].
  assert (forall env,
    truthy_str (env !! "DATABASE_URL")
      = truthy_str (environ w !! "DATABASE_URL") ->
    truthy_str (env !! "DATABASE_NAME")
      = truthy_str (environ w !! "DATABASE_NAME") ->
    (test_database (with_environ env w)).1 = (test_database w).1) as Henv.
  { intros env Hu Hn. rewrite !test_database_run. cbn [fst db environ with_environ].
    unfold set_or_not. by rewrite Hu, Hn. }
  rewrite test_database_run in Henv. cbn [fst] in Henv.
  unfold status_fields, set_or_not in *.
  destruct (db w) as [b|]; [destruct (fault b) as [e|] eqn:Ef|].
  - split; [repeat (apply Forall_cons; split; [eexists; reflexivity|]);
            constructor|].
    do 2 (split; [reflexivity|]).
    split; [exists []; split; [reflexivity|simpl; lia]|].
    split; [|exact Henv].
    intros b0 msg [= <-] Hm. rewrite Ef in Hm. injection Hm as <-.
    split; [reflexivity|apply py_len_prefix].
  - split; [repeat (apply Forall_cons; split; [eexists; reflexivity|]);
            constructor|].
    do 2 (split; [reflexivity|]).
    split; [eexists; split; [reflexivity|]|].
    { rewrite length_fmap. apply length_take_le. }
    split; [|exact Henv].
    intros b0 msg [= <-] Hm. rewrite Ef in Hm. discriminate.
  - split; [repeat (apply Forall_cons; split; [eexists; reflexivity|]);
            constructor|].
    do 2 (split; [reflexivity|]).
    split; [exists []; split; [reflexivity|simpl; lia]|].
    split; [|exact Henv].
    intros b0 msg [=].
Qed.

(** ** The collections the handlers touch *)

Lemma fmap_run {A B : Type} (f : A -> B) (m : M A) (w : world) :
  ((f <$> m) w).2 = (m w).2.
Proof. unfold fmap, M_fmap. by destruct (m w) as [[a|e] w']. Qed.

Lemma create_document_calls (c : string) (data : doc) (w : world) :
  calls (create_document c data w).2 = calls w ++ [c].
Proof.
  rewrite create_document_spec.
  destruct (db w) as [b|]; [|done]. by destruct (fault b).
Qed.

Lemma import_menu_calls (payload : MenuImport.t) (w : world) :
  exists new,
    calls (import_menu payload w).2 = calls w ++ new /\
    (new = [] \/ new = ["menuitem"]).
Proof.
  unfold import_menu. rewrite bind_run. unfold gets at 1.
  destruct (db w) as [b|]; [exists ["menuitem"] | exists []]; cycle 1.
  { split; [by rewrite app_nil_r | by left]. }
  split; [|by right].
  rewrite bind_run. unfold modify at 1. rewrite bind_run, import_loop.
  destruct (stamped _ _ _) as [|d ds]; [done|].
  rewrite bind_run. unfold insert_many. destruct (fault b); [|done].
  rewrite bind_run. by destruct (take _ _).
Qed.

Lemma sort_created_desc_world (out : list doc) (w : world) :
  (sort_created_desc out w).2 = w.
Proof.
  unfold sort_created_desc. destruct out as [|x [|y r]]; try done.
  destruct (mapM _ _) as [keys|]; [by destruct (sort_desc _)|].
  destruct (_ || _); [|done]. rewrite bind_run. unfold gets.
  by destruct (unordered w _).
Qed.

Lemma list_reservations_calls (limit : Z) (w : world) :
  calls (list_reservations limit w).2 = calls w ++ ["reservation"].
Proof.
  unfold list_reservations. rewrite bind_run, get_documents_spec.
  by rewrite sort_created_desc_world.
Qed.

(** C3: each schema's collection is named by the lower-cased class name
    ([MenuItem] gives ["menuitem"], and so on for the eight schemas), and
    whatever route is served, in whatever world, every collection name it
    hands to the store is the lower-cased class name of the schema that
    route works on. *)
Theorem collection_names_are_lowercased
        (isoformat : datetime -> string) (timestamp_int : datetime -> Z) :
  map collection_name
      [MenuItem; Special; GalleryImage; Testimonial; ContactMessage;
       Reservation; AdminUser; AnalyticsEvent]
  = ["menuitem"; "special"; "galleryimage"; "testimonial"; "contactmessage";
     "reservation"; "adminuser"; "analyticsevent"] /\
  forall (r : route) (w : world),
  exists new,
    calls (dispatch isoformat timestamp_int r w).2 = calls w ++ new /\
    Forall (fun c => exists cls,
                schema_of r = Some cls /\ c = py_lower (__name__ cls)) new.
Proof.
  split; [reflexivity|]. intros r w.
  assert (forall cls, schema_of r = Some cls ->
            Forall (fun c => exists cls,
                      schema_of r = Some cls /\ c = py_lower (__name__ cls))
                   [collection_name cls]) as Hone.
  { intros cls Hc. constructor; [|constructor]. by exists cls. }
  destruct r; cbn [dispatch]; rewrite fmap_run.
  - exists []. split; [by rewrite app_nil_r|constructor].
  - exists [collection_name MenuItem]. split; [|by apply Hone].
    by rewrite get_menu_spec.
  - exists [collection_name Special]. split; [|by apply Hone].
    by rewrite get_specials_spec.
  - exists [collection_name GalleryImage]. split; [|by apply Hone].
    unfold get_gallery. by rewrite bind_run, get_documents_spec, mapM_validated.
  - exists [collection_name Testimonial]. split; [|by apply Hone].
    unfold get_testimonials.
    by rewrite bind_run, get_documents_spec, mapM_validated.
  - exists [collection_name ContactMessage]. split; [|by apply Hone].
    unfold submit_contact. rewrite bind_run.
    pose proof (create_document_calls (collection_name ContactMessage)
                  (ContactMessage.model_dump payload) w) as Hc.
    by destruct (create_document _ _ w) as [[ref|e] w'].
  - exists [collection_name Reservation]. split; [|by apply Hone].
    unfold submit_reservation. rewrite bind_run.
    destruct (truthy_bool _); rewrite ?bind_run; unfold utcnow;
      cbn [mret M_ret]; rewrite bind_run;
      match goal with
      | |- context [create_document ?c ?d ?w0] =>
          pose proof (create_document_calls c d w0) as Hc;
          by destruct (create_document c d w0) as [[ref|e] w']
      end.
  - exists [collection_name AnalyticsEvent]. split; [|by apply Hone].
    unfold track_analytics. rewrite bind_run. unfold utcnow. rewrite bind_run.
    match goal with
    | |- context [create_document ?c ?d ?w0] =>
        pose proof (create_document_calls c d w0) as Hc;
        by destruct (create_document c d w0) as [[ref|e] w']
    end.
  - destruct (import_menu_calls payload w) as (new & Hc & [->| ->]).
    + exists []. split; [done|constructor].
    + exists [collection_name MenuItem]. split; [done|by apply Hone].
  - exists [collection_name Reservation]. split; [|by apply Hone].
    apply list_reservations_calls.
  - exists []. split; [|constructor].
    by rewrite test_database_run, app_nil_r.
Qed.

(** ** The reservation listing *)

Lemma string_ge_trans (a b c : string) :
  String.compare a b <> Lt -> String.compare b c <> Lt ->
  String.compare a c <> Lt.
Proof.
  revert b c. induction a as [|x a IH]; intros [|y b] [|z c]; simpl;
    try done.
  unfold Ascii.compare.
  destruct (N.compare_spec (N_of_ascii x) (N_of_ascii y)) as [E1|E1|E1],
           (N.compare_spec (N_of_ascii y) (N_of_ascii z)) as [E2|E2|E2],
           (N.compare_spec (N_of_ascii x) (N_of_ascii z)) as [E3|E3|E3];
    try done; try lia.
  apply IH.
Qed.

Lemma xnum_ge_trans (a b c : xnum) :
  xnum_compare a b <> Lt -> xnum_compare b c <> Lt -> xnum_compare a c <> Lt.
Proof.
  destruct a as [|p|], b as [|q|], c as [|r|]; simpl; try done.
  intros H1 H2 H3.
  assert (q <= p)%Q as Hqp.
  { apply Qle_alt. rewrite <- Qcompare_antisym. by destruct (p ?= q)%Q. }
  assert (r <= q)%Q as Hrq.
  { apply Qle_alt. rewrite <- Qcompare_antisym. by destruct (q ?= r)%Q. }
  apply Qlt_alt in H3. pose proof (Qle_trans _ _ _ Hrq Hqp) as Hrp.
  by apply Qle_not_lt in Hrp.
Qed.

Lemma xnum_compare_antisym (a b : xnum) :
  xnum_compare b a = CompOpp (xnum_compare a b).
Proof.
  destruct a as [|p|], b as [|q|]; simpl; try done.
  symmetry. apply Qcompare_antisym.
Qed.

Lemma skey_lt_asym (a b : skey) :
  skey_lt a b = Some true -> skey_lt b a = Some false.
Proof.
  unfold skey_lt.
  destruct a as [x|x|x|x], b as [y|y|y|y]; simpl; try done.
  - rewrite (N.compare_antisym x y). destruct (x ?= y)%N; simpl; done.
  - rewrite (String.compare_antisym y x).
    destruct (String.compare x y); simpl; done.
  - rewrite (N.compare_antisym x y). destruct (x ?= y)%N; simpl; done.
  - rewrite (xnum_compare_antisym x y).
    destruct (xnum_compare x y); simpl; done.
Qed.

Lemma skey_ge_trans (a b c : skey) :
  skey_lt a b = Some false -> skey_lt b c = Some false ->
  skey_lt a c = Some false.
Proof.
  unfold skey_lt.
  destruct a as [x|x|x|x], b as [y|y|y|y], c as [z|z|z|z]; simpl; try done.
  - destruct (N.compare_spec x y), (N.compare_spec y z),
      (N.compare_spec x z); try done; lia.
  - intros H1 H2.
    assert (String.compare x z <> Lt) as H.
    { apply (string_ge_trans x y z).
      - by destruct (String.compare x y).
      - by destruct (String.compare y z). }
    by destruct (String.compare x z).
  - destruct (N.compare_spec x y), (N.compare_spec y z),
      (N.compare_spec x z); try done; lia.
  - intros H1 H2.
    assert (xnum_compare x z <> Lt) as H.
    { apply (xnum_ge_trans x y z).
      - by destruct (xnum_compare x y).
      - by destruct (xnum_compare y z). }
    by destruct (xnum_compare x z).
Qed.


Lemma insert_desc_perm (x : skey * doc) (l s : list (skey * doc)) :
  insert_desc x l = Some s -> s ≡ₚ x :: l.
Proof.
  revert s. induction l as [|y r IH]; intros s; simpl.
  - by intros [= <-].
  - destruct (skey_lt x.1 y.1) as [[|]|]; [|by intros [= <-]|done].
    destruct (insert_desc x r) as [r'|]; [|done]. intros [= <-].
    rewrite (IH r' eq_refl). apply Permutation_swap.
Qed.

Lemma sort_desc_perm (l s : list (skey * doc)) :
  sort_desc l = Some s -> s ≡ₚ l.
Proof.
  revert s. induction l as [|x r IH]; intros s; simpl.
  - by intros [= <-].
  - destruct (sort_desc r) as [r'|]; [|done]. simpl. intros H.
    rewrite (insert_desc_perm _ _ _ H). by rewrite (IH r' eq_refl).
Qed.

Lemma insert_desc_sorted (x : skey * doc) (l s : list (skey * doc)) :
  StronglySorted key_ge l -> insert_desc x l = Some s ->
  StronglySorted key_ge s.
Proof.
  intros Hl. revert s. induction Hl as [|y r Hr IH Hy]; intros s; simpl.
  - intros [= <-]. repeat constructor.
  - destruct (skey_lt x.1 y.1) as [[|]|] eqn:E; [| |done].
    + destruct (insert_desc x r) as [r'|] eqn:Er; [|done]. intros [= <-].
      constructor; [by apply IH|].
      rewrite (insert_desc_perm _ _ _ Er). constructor; [|exact Hy].
      by apply skey_lt_asym.
    + intros [= <-]. constructor; [by constructor|].
      constructor; [exact E|].
      eapply Forall_impl; [exact Hy|]. intros z Hz.
      by apply (skey_ge_trans _ y.1).
Qed.

Lemma sort_desc_sorted (l s : list (skey * doc)) :
  sort_desc l = Some s -> StronglySorted key_ge s.
Proof.
  revert s. induction l as [|x r IH]; intros s; simpl.
  - intros [= <-]. constructor.
  - destruct (sort_desc r) as [r'|]; [|done]. simpl.
    apply insert_desc_sorted. by apply IH.
Qed.



Lemma StronglySorted_lookup_lt {A : Type} (R : A -> A -> Prop) (l : list A)
      (i j : nat) (a b : A) :
  StronglySorted R l -> i < j -> l !! i = Some a -> l !! j = Some b -> R a b.
Proof.
  intros Hs. revert i j. induction Hs as [|x r Hr IH Hx]; intros i j Hij Hi Hj.
  - by rewrite lookup_nil in Hi.
  - destruct j as [|j]; [lia|]. simpl in Hj. destruct i as [|i]; simpl in Hi.
    + injection Hi as <-. rewrite Forall_forall in Hx. apply Hx.
      by eapply list_elem_of_lookup_2.
    + apply (IH i j); [lia|done|done].
Qed.

(** Stability: elements whose keys are never strictly ordered among
    themselves keep their relative order. *)
Lemma insert_desc_filter (P : skey -> bool) (x : skey * doc)
      (l s : list (skey * doc)) :
  (forall a b, P a = true -> P b = true -> skey_lt a b <> Some true) ->
  insert_desc x l = Some s ->
  List.filter (fun p : skey * doc => P p.1) s
  = List.filter (fun p : skey * doc => P p.1) (x :: l).
Proof.
  intros HP. revert s. induction l as [|y r IH]; intros s.
  - by intros [= <-].
  - cbn [insert_desc]. destruct (skey_lt x.1 y.1) as [[|]|] eqn:E;
      [|by intros [= <-]|done].
    destruct (insert_desc x r) as [r'|]; [|done]. intros [= <-].
    cbn [List.filter] in IH |- *. rewrite (IH r' eq_refl). cbn beta.
    destruct (P x.1) eqn:Ex, (P y.1) eqn:Ey; try done.
    by destruct (HP _ _ Ex Ey).
Qed.

Lemma sort_desc_filter (P : skey -> bool) (l s : list (skey * doc)) :
  (forall a b, P a = true -> P b = true -> skey_lt a b <> Some true) ->
  sort_desc l = Some s ->
  List.filter (fun p : skey * doc => P p.1) s
  = List.filter (fun p : skey * doc => P p.1) l.
Proof.
  intros HP. revert s. induction l as [|x r IH]; intros s.
  - by intros [= <-].
  - cbn [sort_desc]. destruct (sort_desc r) as [r'|]; [|done]. simpl.
    intros H. rewrite (insert_desc_filter P _ _ _ HP H). cbn [List.filter].
    by rewrite (IH r' eq_refl).
Qed.

Lemma key_is_sortable (k : datetime) (d : doc) :
  key_is k d = match sortable (sort_value d) with
               | Some a => is_date k a
               | None => false
               end.
Proof.
  unfold key_is, created_key, sort_value.
  destruct (d !! "created_at") as [[| | |f| | | | |]|]; simpl; try done.
  by destruct (float_num f).
Qed.

Lemma is_date_unordered (k : datetime) (a b : skey) :
  is_date k a = true -> is_date k b = true -> skey_lt a b <> Some true.
Proof.
  destruct a as [x| | |], b as [y| | |]; simpl; try done.
  intros Hx Hy. apply N.eqb_eq in Hx, Hy. subst. unfold skey_lt. simpl.
  by rewrite N.compare_refl.
Qed.

Lemma decorated_filter (k : datetime) (l : list (skey * doc)) :
  Forall (fun p => sortable (sort_value p.2) = Some p.1) l ->
  List.filter (key_is k) (l.*2)
  = (List.filter (fun p : skey * doc => is_date k p.1) l).*2.
Proof.
  induction 1 as [|p l Hp _ IH]; [done|].
  cbn [fmap list_fmap List.filter]. rewrite key_is_sortable, Hp.
  destruct (is_date k p.1); cbn [fmap list_fmap]; by rewrite IH.
Qed.

Lemma decorated_keys (docs : list doc) (keys : list skey) :
  Forall2 (fun d k => sortable (sort_value d) = Some k) docs keys ->
  Forall (fun p => sortable (sort_value p.2) = Some p.1) (zip keys docs).
Proof. induction 1; simpl; constructor; auto. Qed.

Lemma sort_created_desc_pure (out : list doc) (w w0 : world) :
  unordered w = unordered w0 ->
  sort_created_desc out w = ((sort_created_desc out w0).1, w).
Proof.
  intros Hu. unfold sort_created_desc. destruct out as [|x [|y r]]; try done.
  destruct (mapM _ _) as [keys|]; [by destruct (sort_desc _)|].
  destruct (_ || _); [|done]. rewrite !bind_run. unfold gets. rewrite Hu.
  by destruct (unordered w0 _).
Qed.

Lemma list_reservations_run (limit : Z) (w : world) :
  list_reservations limit w =
  ((sort_created_desc (fetched_reservations limit w) w).1,
   record_call "reservation" w).
Proof.
  unfold list_reservations. rewrite bind_run, get_documents_spec.
  rewrite filter_all by apply matches_empty.
  change (collection_name Reservation) with "reservation".
  unfold fetched_reservations. by apply sort_created_desc_pure.
Qed.

Lemma insert_rank_perm (x : nat * doc) (l : list (nat * doc)) :
  insert_rank x l ≡ₚ x :: l.
Proof.
  induction l as [|y r IH]; simpl; [done|].
  destruct (y.1 <? x.1)%nat; [|done]. rewrite IH. apply Permutation_swap.
Qed.

Lemma arrange_perm (rank : nat -> nat) (out : list doc) :
  arrange rank out ≡ₚ out.
Proof.
  unfold arrange.
  assert (forall l, foldr insert_rank [] l ≡ₚ l) as ->.
  { induction l as [|x r IH]; simpl; [done|].
    by rewrite insert_rank_perm, IH. }
  rewrite snd_zip; [done|]. rewrite length_fmap, length_seq. lia.
Qed.

Lemma forallb_Forall {A : Type} (f : A -> bool) (l : list A) :
  forallb f l = true -> Forall (fun x => f x = true) l.
Proof.
  induction l as [|x l IH]; simpl; [constructor|].
  intros [Hx Hl]%andb_prop. constructor; auto.
Qed.

(** Keys left to the interpreter are no datetimes. *)
Lemma unordered_undated (out : list doc) :
  forallb (fun x => is_number (sort_value x)) out
  || forallb (fun x => is_array (sort_value x)) out = true ->
  Forall (fun d => created_key d = None) out.
Proof.
  intros [H|H]%orb_prop; apply forallb_Forall in H;
    (eapply Forall_impl; [exact H|]); intros d; cbn beta;
    unfold sort_value, created_key;
    by destruct (d !! "created_at") as [[]|].
Qed.

Lemma undated_listing (res : list doc) :
  Forall (fun d => created_key d = None) res ->
  created_desc res /\ missing_after_later res /\
  forall k, List.filter (key_is k) res = [].
Proof.
  intros H. split; [|split].
  - intros i j x y a c _ Hi _ Hx _.
    apply (Forall_lookup_1 _ _ _ _ H) in Hi. unfold created_key in Hi.
    by rewrite Hx in Hi.
  - intros i j x y t Hi _ Hx _ _.
    apply (Forall_lookup_1 _ _ _ _ H) in Hi. unfold created_key in Hi.
    by rewrite Hx in Hi.
  - intros k. induction H as [|d l Hd _ IH]; [done|].
    cbn [List.filter]. unfold key_is at 1. by rewrite Hd.
Qed.

(** What the sort of keys of a single ordered kind returns: the same
    records, no record followed by one with a larger key, and records with
    the same datetime key in their original order. *)
Lemma sort_desc_Ok (out : list doc) (keys : list skey)
      (s : list (skey * doc)) :
  Forall2 (fun d k => sortable (sort_value d) = Some k) out keys ->
  sort_desc (zip keys out) = Some s ->
  s.*2 ≡ₚ out /\ keys_desc s.*2 /\
  forall k, List.filter (key_is k) s.*2 = List.filter (key_is k) out.
Proof.
  intros Ek Es.
  assert (Forall (fun p => sortable (sort_value p.2) = Some p.1) s) as Hk.
  { rewrite (sort_desc_perm _ _ Es). by apply decorated_keys. }
  pose proof (sort_desc_sorted _ _ Es) as Hs.
  assert ((zip keys out).*2 = out) as Hz.
  { apply snd_zip. apply Forall2_length in Ek. lia. }
  split; [|split].
  - by rewrite (sort_desc_perm _ _ Es), Hz.
  - intros i j x y Hij Hi Hj. rewrite list_lookup_fmap in Hi, Hj.
    destruct (s !! i) as [[a x']|] eqn:Ei; [|discriminate].
    destruct (s !! j) as [[c y']|] eqn:Ej; [|discriminate].
    simpl in Hi, Hj. injection Hi as ->. injection Hj as ->.
    rewrite Forall_forall in Hk.
    pose proof (Hk _ (list_elem_of_lookup_2 _ _ _ Ei)) as Ha.
    pose proof (Hk _ (list_elem_of_lookup_2 _ _ _ Ej)) as Hc.
    simpl in Ha, Hc. unfold doc_lt. rewrite Ha, Hc.
    exact (StronglySorted_lookup_lt key_ge s i j _ _ Hs Hij Ei Ej).
  - intros k. rewrite decorated_filter by exact Hk.
    rewrite (sort_desc_filter (is_date k) _ _ (is_date_unordered k) Es).
    rewrite <- decorated_filter by (by apply decorated_keys).
    by rewrite Hz.
Qed.

Lemma keys_desc_short (out : list doc) :
  length out <= 1 -> keys_desc out.
Proof.
  intros Hlen i j x y Hij Hi Hj. apply lookup_lt_Some in Hj. lia.
Qed.

Lemma keys_desc_created (out : list doc) :
  keys_desc out -> created_desc out /\ missing_after_later out.
Proof.
  intros H. split.
  - intros i j x y a c Hij Hi Hj Hx Hy.
    pose proof (H i j x y Hij Hi Hj) as Hlt.
    unfold doc_lt, sort_value in Hlt. rewrite Hx, Hy in Hlt.
    unfold skey_lt in Hlt. simpl in Hlt. revert Hlt.
    destruct (N.compare_spec a c) as [E|E|E]; intros Hlt.
    + rewrite E. apply N.le_refl.
    + discriminate.
    + by apply N.lt_le_incl.
  - intros i j x y t Hi Hj Hx Hy Ht.
    destruct (decide (j < i)) as [|Hn]; [done|]. exfalso.
    assert (i <> j) as Hne.
    { intros ->. rewrite Hi in Hj. injection Hj as ->. congruence. }
    assert (i < j) as Hij by lia.
    pose proof (H i j x y Hij Hi Hj) as Hlt.
    unfold doc_lt, sort_value in Hlt. rewrite Hx, Hy in Hlt.
    unfold skey_lt in Hlt. simpl in Hlt. unfold datetime_min in *.
    destruct t; [by apply N.lt_irrefl in Ht | discriminate].
Qed.

(** What the sort returns, when it returns: the same records, sorted by
    [created_at] with the records that have none after those stamped later
    than [datetime.min], and records with the same datetime key in their
    original order. *)
Lemma sort_created_desc_Ok (out res : list doc) (w : world) :
  (sort_created_desc out w).1 = Ok res ->
  res ≡ₚ out /\ created_desc res /\ missing_after_later res /\
  forall k, List.filter (key_is k) res = List.filter (key_is k) out.
Proof.
  unfold sort_created_desc. destruct out as [|x0 [|y0 r0]].
  - intros [= <-]. split; [done|].
    destruct (keys_desc_created [] (keys_desc_short [] (Nat.le_0_l 1))).
    by auto.
  - intros [= <-]. split; [done|].
    destruct (keys_desc_created [x0] (keys_desc_short [x0] (Nat.le_refl 1))).
    by auto.
  - set (out := x0 :: y0 :: r0).
    destruct (mapM (fun x => sortable (sort_value x)) out) as [keys|] eqn:Ek.
    + destruct (sort_desc (zip keys out)) as [s|] eqn:Es; [|done].
      intros [= <-]. apply mapM_Some in Ek.
      destruct (sort_desc_Ok out keys s Ek Es) as (Hp & Hd & Hs).
      destruct (keys_desc_created _ Hd). by auto.
    + destruct (_ || _) eqn:Eu; [|done]. rewrite bind_run. unfold gets.
      destruct (unordered w _) as [rank|]; [|done]. intros [= <-].
      apply unordered_undated in Eu.
      pose proof (arrange_perm rank out) as Hp.
      assert (Forall (fun d => created_key d = None) (arrange rank out))
        as Hr by (by rewrite Hp).
      destruct (undated_listing _ Hr) as (Hc & Hm & Hf).
      destruct (undated_listing _ Eu) as (_ & _ & Hf').
      split; [exact Hp|]. split; [exact Hc|]. split; [exact Hm|].
      intros k. by rewrite Hf, Hf'.
Qed.




(** ** The properties at the sample data *)

Lemma import_then_list_roundtrip_witness :
  (get_menu None None sample_world).1 = Ok [] /\
  exists resp w',
    import_menu (MenuImport.Build [margherita]) sample_world = (Ok resp, w') /\
    (get_menu None None w').1 = Ok ([] ++ [margherita]).
Proof.
  split; [vm_compute; reflexivity|].
  apply (import_then_list_roundtrip (MenuImport.Build [margherita])
           sample_world sample_db []).
  - reflexivity.
  - reflexivity.
  - constructor; [reflexivity|constructor].
  - vm_compute; reflexivity.
Defined.

Lemma import_twice_keeps_both_copies_witness :
  exists resp1 w1 resp2 w2 new1 new2,
    import_menu (MenuImport.Build [margherita]) sample_world = (Ok resp1, w1) /\
    import_menu (MenuImport.Build [margherita]) w1 = (Ok resp2, w2) /\
    visible w1 "menuitem" = visible sample_world "menuitem" ++ new1 /\
    visible w2 "menuitem" = visible sample_world "menuitem" ++ new1 ++ new2 /\
    payload_of <$> new1 = MenuItem.model_dump <$> [margherita] /\
    payload_of <$> new2 = MenuItem.model_dump <$> [margherita] /\
    length new1 = 1 /\
    length new2 = 1.
Proof.
  apply (import_twice_keeps_both_copies (MenuImport.Build [margherita])
           sample_world sample_db); reflexivity.
Defined.

Lemma reservation_record_keeps_pay_now_witness :
  exists resp w' b' rec,
    submit_reservation (fun t => Z.of_N t) sample_booking sample_world
      = (Ok resp, w') /\
    db w' = Some b' /\
    records b' "reservation" = records sample_db "reservation" ++ [rec] /\
    rec !! "pay_now" = Some (VBool true) /\
    Forall (fun k => is_Some (rec !! k)) Reservation.fields /\
    Forall (fun k => k <> "payment_reference" ->
                     rec !! k =
                     Reservation.model_dump
                       (ReservationRequest.base sample_booking) !! k)
           Reservation.fields.
Proof.
  apply (reservation_record_keeps_pay_now (fun t => Z.of_N t) sample_booking
           sample_world sample_db); reflexivity.
Defined.

Lemma analytics_ip_and_receipt_time_witness :
  exists resp w' b' rec,
    track_analytics (fun t => str_of_Z (Z.of_N t)) sample_event
                    (Request.Build (Some "192.0.2.7")) sample_world
      = (Ok resp, w') /\
    db w' = Some b' /\
    records b' "analyticsevent" = records sample_db "analyticsevent" ++ [rec] /\
    rec !! "ip" = Some (VStr "192.0.2.7") /\
    rec !! "received_at" = Some (VStr "1") /\
    forall ip',
      track_analytics (fun t => str_of_Z (Z.of_N t))
                      (AnalyticsEvent.with_ip ip' sample_event)
                      (Request.Build (Some "192.0.2.7")) sample_world
      = (Ok resp, w').
Proof.
  apply (analytics_ip_and_receipt_time (fun t => str_of_Z (Z.of_N t))
           sample_event (Request.Build (Some "192.0.2.7")) sample_world
           sample_db); reflexivity.
Defined.



Lemma specials_default_differs_from_false_witness :
  (dispatch (fun t => str_of_Z (Z.of_N t)) (fun t => Z.of_N t)
            (GET_api_specials None) specials_world).1 =
    Ok (Specials (List.filter Special.active [last_winter; happy_hour])) /\
  (dispatch (fun t => str_of_Z (Z.of_N t)) (fun t => Z.of_N t)
            (GET_api_specials (Some false)) specials_world).1 =
    Ok (Specials [last_winter; happy_hour]).
Proof.
  apply (specials_default_differs_from_false
           (fun t => str_of_Z (Z.of_N t)) (fun t => Z.of_N t)
           specials_world [last_winter; happy_hour]).
  change (visible specials_world "special")
    with [<["_id" := VOid 0]> (Special.model_dump last_winter);
          <["_id" := VOid 1]> (Special.model_dump happy_hour)].
  repeat constructor; reflexivity.
Defined.

(** ** Further properties: the schemas *)

(** A menu item survives dumping and rebuilding exactly when its price
    passes [ge=0]; otherwise the constructor rejects its own dump. *)
Theorem menu_item_dump_construct (m : MenuItem.t) :
  MenuItem.construct (MenuItem.model_dump m) =
  if ge0 (MenuItem.price m) then Some m else None.
Proof.
  destruct m as [n ds p ca im f v].
  unfold MenuItem.construct, req_str, opt_str, req_float_ge0, fld_bool,
    MenuItem.model_dump.
  simplify_map_eq. destruct (ge0 p); [|by destruct ds]. by destruct ds, im.
Qed.

(** A special survives dumping and rebuilding exactly when its discount, if
    it has one, lies between 0 and 100. *)
Theorem special_dump_construct (m : Special.t) :
  Special.construct (Special.model_dump m) =
  match Special.discount_percent m with
  | Some z => if in_range 0 100 z then Some m else None
  | None => Some m
  end.
Proof.
  destruct m as [ti ds dp vu h c a].
  unfold Special.construct, req_str, opt_str, opt_int, opt_date, fld_bool,
    Special.model_dump.
  simplify_map_eq.
  destruct ds, dp as [z|], vu, h, c; simpl; try done;
    by destruct (in_range 0 100 z).
Qed.

(** A testimonial survives dumping and rebuilding exactly when its rating
    lies between 1 and 5. *)
Theorem testimonial_dump_construct (m : Testimonial.t) :
  Testimonial.construct (Testimonial.model_dump m) =
  if in_range 1 5 (Testimonial.rating m) then Some m else None.
Proof.
  destruct m as [n r c a f].
  unfold Testimonial.construct, req_str, opt_str, fld_int, fld_bool,
    Testimonial.model_dump.
  simplify_map_eq. destruct (in_range 1 5 r); [|done]. by destruct a.
Qed.

(** A gallery image has no constraint: it always survives dumping and
    rebuilding. *)
Theorem gallery_image_dump_construct (m : GalleryImage.t) :
  GalleryImage.construct (GalleryImage.model_dump m) = Some m.
Proof.
  destruct m as [u c o].
  unfold GalleryImage.construct, req_str, opt_str, opt_int,
    GalleryImage.model_dump.
  simplify_map_eq. by destruct c, o.
Qed.

(** The constructor of [MenuItem] reads the seven declared keys and nothing
    else: two dictionaries that agree on them are treated alike, whatever
    other keys they hold. *)
Theorem menu_item_ignores_other_keys (d1 d2 : doc) :
  Forall (fun k => d1 !! k = d2 !! k) menu_item_fields ->
  MenuItem.construct d1 = MenuItem.construct d2.
Proof.
  unfold menu_item_fields. intros H.
  repeat (apply Forall_cons in H as [? H]).
  unfold MenuItem.construct, req_str, opt_str, req_float_ge0, fld_bool.
  repeat match goal with
         | E : d1 !! _ = d2 !! _ |- _ => rewrite E; clear E
         end.
  reflexivity.
Qed.

(** A dictionary that gives only a name, a non-negative price and a category
    is accepted, and the other fields take the defaults of the schema: no
    description, no image, not featured, vegetarian. *)
Theorem menu_item_defaults (d : doc) (n c : string) (p : spec_float) :
  d !! "name" = Some (VStr n) ->
  d !! "price" = Some (VFloat p) ->
  d !! "category" = Some (VStr c) ->
  ge0 p = true ->
  d !! "description" = None -> d !! "image_url" = None ->
  d !! "featured" = None -> d !! "vegetarian" = None ->
  MenuItem.construct d = Some (MenuItem.Build n None p c None false true).
Proof.
  intros Hn Hp Hc Hge Hd Hi Hf Hv.
  unfold MenuItem.construct, req_str, opt_str, req_float_ge0, fld_bool.
  by rewrite Hn, Hp, Hc, Hge, Hd, Hi, Hf, Hv.
Qed.

Lemma menu_item_construct_inv (d : doc) (m : MenuItem.t) :
  MenuItem.construct d = Some m ->
  MenuItem.valid m /\
  d !! "name" = Some (VStr (MenuItem.name m)) /\
  d !! "price" = Some (VFloat (MenuItem.price m)) /\
  d !! "category" = Some (VStr (MenuItem.category m)).
Proof.
  unfold MenuItem.construct, req_str, req_float_ge0, MenuItem.valid.
  intros H.
  destruct (d !! "name") as [[]|]; try discriminate. simpl in H.
  destruct (opt_str d "description" None); try discriminate. simpl in H.
  destruct (d !! "price") as [[| | |x| | | | |]|]; try discriminate.
  destruct (ge0 x) eqn:E; try discriminate. simpl in H.
  destruct (d !! "category") as [[]|]; try discriminate. simpl in H.
  destruct (opt_str d "image_url" None); try discriminate. simpl in H.
  destruct (fld_bool d "featured" false); try discriminate. simpl in H.
  destruct (fld_bool d "vegetarian" true); try discriminate. simpl in H.
  injection H as <-. by simpl.
Qed.

Lemma surely_rejected_construct (d : doc) :
  surely_rejected d -> MenuItem.construct (delete "_id" d) = None.
Proof.
  unfold MenuItem.construct, req_str, req_float_ge0.
  rewrite !lookup_delete_ne by done.
  intros [H|[H|[H|(x & H & Hx)]]].
  - by rewrite H.
  - rewrite H. destruct (d !! "name") as [[]|]; try done. simpl.
    by destruct (opt_str _ "description" None).
  - rewrite H. destruct (d !! "name") as [[]|]; try done. simpl.
    destruct (opt_str _ "description" None); try done. simpl.
    destruct (d !! "price") as [[| | |y| | | | |]|]; try done.
    by destruct (ge0 y).
  - rewrite H, Hx. destruct (d !! "name") as [[]|]; try done. simpl.
    by destruct (opt_str _ "description" None).
Qed.

(** Whatever the store holds and whatever the filters, every item
    [GET /api/menu] returns has a price that passes [ge=0]; and a single
    selected record that lacks a required field, or whose price is a float
    failing [ge=0], makes the whole listing fail with a validation error: no
    partial list is returned. *)
Theorem menu_listing_all_or_nothing
        (category : option string) (featured : option bool) (w : world) :
  (forall l, (get_menu category featured w).1 = Ok l ->
             Forall MenuItem.valid l) /\
  ((exists d, d ∈ List.filter (menu_selected category featured)
                              (visible w "menuitem") /\
              surely_rejected d) ->
   (get_menu category featured w).1 = Raise (ValidationError "MenuItem")).
Proof.
  rewrite get_menu_spec. cbn [fst]. split.
  - intros l Hl. apply construct_all_Ok in Hl.
    eapply (Forall2_transfer _ (fun _ => True)); [|exact Hl|].
    + intros d m Hd _. by apply menu_item_construct_inv in Hd as [? _].
    + by apply Forall_true.
  - intros (d & Hin & Hd). apply surely_rejected_construct in Hd.
    unfold construct_all.
    destruct (mapM _ _) as [l|] eqn:E; [|done].
    apply mapM_Some in E.
    apply list_elem_of_lookup in Hin as [i Hi].
    destruct (Forall2_lookup_l _ _ _ _ _ E Hi) as (m & _ & Hm). congruence.
Qed.

(** ** Further properties: the bulk import *)

Lemma import_menu_run (payload : MenuImport.t) (w : world) :
  import_menu payload w =
  match db w with
  | None => (Raise (HTTPException 500 "Database not available"), w)
  | Some b =>
      let items := MenuImport.items payload in
      let docs := stamped (clock w) (ticks w) items in
      let w1 := advance (2 * length items) (record_call "menuitem" w) in
      let message : doc :=
        <["message" := VStr ("Imported " +:+ str_of_nat (length items)
                             +:+ " menu items")]> ∅ in
      match items with
      | [] => (Ok message, w1)
      | _ :: _ =>
          match fault b with
          | Some msg =>
              (Raise (StoreError msg),
               match take (cut b) docs with
               | [] => w1
               | (_ :: _) as written => set_db (stored b "menuitem" written) w1
               end)
          | None => (Ok message, set_db (stored b "menuitem" docs) w1)
          end
      end
  end.
Proof.
  unfold import_menu. rewrite bind_run. unfold gets at 1.
  destruct (db w) as [b|]; [|done].
  rewrite bind_run. unfold modify at 1. rewrite bind_run, import_loop.
  cbn [clock ticks record_call].
  destruct (MenuImport.items payload) as [|it items]; [done|].
  cbn [stamped]. rewrite bind_run. unfold insert_many.
  destruct (fault b).
  - rewrite bind_run. cbn [length]. rewrite length_stamped.
    by destruct (take (cut b) _).
  - unfold modify. cbn [mret M_ret length]. by rewrite length_stamped.
Qed.

(** Without a database handle [POST /admin/import-menu] fails with status
    500 and the detail "Database not available" before it does anything: the
    clock is not read and the store is not touched. *)
Theorem import_menu_without_database (payload : MenuImport.t) (w : world) :
  db w = None ->
  import_menu payload w =
  (Raise (HTTPException 500 "Database not available"), w).
Proof. intros H. by rewrite import_menu_run, H. Qed.

(** An empty payload never reaches the store: with a database handle, even
    one whose server fails every operation, the import answers
    "Imported 0 menu items" and the database keeps its records. *)
Theorem import_menu_empty_payload (w : world) (b : database) :
  db w = Some b ->
  (import_menu (MenuImport.Build []) w).1 =
    Ok (<["message" := VStr "Imported 0 menu items"]> ∅) /\
  db (import_menu (MenuImport.Build []) w).2 = Some b.
Proof. intros H. rewrite import_menu_run, H. by split. Qed.

(** When the store fails during the bulk insert, the import fails with the
    store's error, and the documents the store took before failing stay: the
    collection then holds what it held, followed by the first documents of
    the payload, in payload order, and none of the others.  When the store
    took none, the database is as it was. *)
Theorem import_menu_store_error
        (payload : MenuImport.t) (w : world) (b : database) (msg : string) :
  db w = Some b -> fault b = Some msg ->
  MenuImport.items payload <> [] ->
  exists b',
    (import_menu payload w).1 = Raise (StoreError msg) /\
    db (import_menu payload w).2 = Some b' /\
    records b' "menuitem" =
      records b "menuitem" ++
      with_ids (next_oid b)
        (take (cut b)
              (stamped (clock w) (ticks w) (MenuImport.items payload))) /\
    (cut b = 0 -> b' = b).
Proof.
  intros Hdb Hf Hne. rewrite import_menu_run, Hdb. cbn zeta.
  destruct (MenuImport.items payload) as [|it items] eqn:E; [done|].
  rewrite Hf. cbn [fst snd].
  destruct (take (cut b) (stamped (clock w) (ticks w) (it :: items)))
    as [|d ds] eqn:Et.
  - exists b. cbn [db advance record_call]. rewrite Hdb.
    split; [done|]. split; [done|]. split; [|done].
    unfold with_ids. simpl. by rewrite app_nil_r.
  - eexists. cbn [db set_db]. split; [done|]. split; [reflexivity|].
    split; [apply records_stored|].
    intros H0. rewrite H0 in Et. discriminate.
Qed.

Lemma imported_stamps (g : nat -> N) (clk : nat -> datetime) (t : nat)
      (items : list MenuItem.t) :
  monotone clk ->
  Forall (fun d => exists a c,
            d !! "created_at" = Some (VDate a) /\
            d !! "updated_at" = Some (VDate c) /\ (a <= c)%N)
         (imap (fun i d => <["_id" := VOid (g i)]> d) (stamped clk t items)).
Proof.
  intros Hmono. revert g t.
  induction items as [|it items IH]; intros g t; simpl; constructor;
    [|apply (IH (g ∘ S))].
  exists (clk t), (clk (S t)).
  split; [by simplify_map_eq|]. split; [by simplify_map_eq|].
  apply Hmono. lia.
Qed.

(** In a connected, answering store the import answers with the number of
    items of the payload and reads the clock twice per item; when the clock
    never runs backwards, every record it adds has a [created_at] no later
    than its [updated_at]. *)
Theorem import_menu_counts_and_stamps
        (payload : MenuImport.t) (w : world) (b : database) :
  db w = Some b -> fault b = None -> monotone (clock w) ->
  exists new,
    (import_menu payload w).1 =
      Ok (<["message" :=
             VStr ("Imported "
                   +:+ str_of_nat (length (MenuImport.items payload))
                   +:+ " menu items")]> ∅) /\
    ticks (import_menu payload w).2
      = 2 * length (MenuImport.items payload) + ticks w /\
    visible (import_menu payload w).2 "menuitem"
      = visible w "menuitem" ++ new /\
    length new = length (MenuImport.items payload) /\
    Forall (fun d => exists a c,
              d !! "created_at" = Some (VDate a) /\
              d !! "updated_at" = Some (VDate c) /\ (a <= c)%N) new.
Proof.
  intros Hdb Hf Hmono.
  exists (with_ids (next_oid b)
            (stamped (clock w) (ticks w) (MenuImport.items payload))).
  rewrite import_menu_run, Hdb. cbn zeta. rewrite Hf.
  unfold visible at 2. rewrite Hdb, Hf.
  split; [by destruct (MenuImport.items payload)|].
  split; [by destruct (MenuImport.items payload)|].
  split; [|split].
  - destruct (MenuImport.items payload) as [|it items] eqn:E.
    + unfold visible. cbn [snd db advance record_call]. rewrite Hdb, Hf.
      by rewrite app_nil_r.
    + unfold visible. cbn [snd db set_db]. cbn [fault stored].
      rewrite Hf. apply records_stored.
  - unfold with_ids. by rewrite length_imap, length_stamped.
  - by apply imported_stamps.
Qed.

Lemma stored_item_selected (m : MenuItem.t) (i c u : value)
      (category : option string) (featured : option bool) :
  menu_selected category featured
    (<["_id" := i]> (<["updated_at" := u]> (<["created_at" := c]>
       (MenuItem.model_dump m))))
  = item_selected category featured m.
Proof.
  unfold menu_selected, item_selected, has_str, has_bool, MenuItem.model_dump.
  by simplify_map_eq.
Qed.

Lemma imported_selected (g : nat -> N) (clk : nat -> datetime) (t : nat)
      (items : list MenuItem.t) (category : option string)
      (featured : option bool) :
  Forall MenuItem.valid items ->
  Forall2 (fun d m => MenuItem.construct (delete "_id" d) = Some m)
          (List.filter (menu_selected category featured)
             (imap (fun i d => <["_id" := VOid (g i)]> d)
                   (stamped clk t items)))
          (List.filter (item_selected category featured) items).
Proof.
  intros Hv. revert g t.
  induction Hv as [|it items Hit _ IH]; intros g t; simpl; [constructor|].
  rewrite stored_item_selected.
  destruct (item_selected category featured it).
  - constructor; [by apply construct_stored | apply (IH (g ∘ S))].
  - apply (IH (g ∘ S)).
Qed.

(** Import and listing compose under any filters: in a connected, answering
    store whose menu could be listed with some category and featured filters,
    the same listing after an import of valid items is the earlier listing
    followed by the imported items those filters select, in payload order. *)
Theorem import_then_filtered_listing
        (payload : MenuImport.t) (w : world) (b : database)
        (category : option string) (featured : option bool)
        (old : list MenuItem.t) :
  db w = Some b -> fault b = None ->
  Forall MenuItem.valid (MenuImport.items payload) ->
  (get_menu category featured w).1 = Ok old ->
  (get_menu category featured (import_menu payload w).2).1 =
    Ok (old ++ List.filter (item_selected category featured)
                           (MenuImport.items payload)).
Proof.
  intros Hdb Hf Hv Hold.
  destruct (import_menu_ok payload w b Hdb Hf)
    as (resp & w' & b' & Hrun & Hdb' & Hf' & Hrec & _).
  rewrite Hrun. cbn [snd].
  rewrite get_menu_spec in Hold |- *. cbn [fst] in Hold |- *.
  unfold visible in Hold |- *. rewrite Hdb, Hf in Hold. rewrite Hdb', Hf', Hrec.
  rewrite List.filter_app.
  apply construct_all_Ok in Hold. apply construct_all_Ok.
  apply Forall2_app; [exact Hold|]. by apply imported_selected.
Qed.

(** ** Further properties: what a request does to the store *)

Lemma get_gallery_spec (w : world) :
  get_gallery w =
  (construct_all GalleryImage GalleryImage.construct (visible w "galleryimage"),
   record_call "galleryimage" w).
Proof.
  unfold get_gallery. rewrite bind_run, get_documents_spec, mapM_validated.
  simpl limited. by rewrite filter_all by apply matches_empty.
Qed.

Lemma get_testimonials_spec (w : world) :
  get_testimonials w =
  (construct_all Testimonial Testimonial.construct
     (List.filter (fun d => has_bool d "featured" true)
                  (visible w "testimonial")),
   record_call "testimonial" w).
Proof.
  unfold get_testimonials. rewrite bind_run, get_documents_spec, mapM_validated.
  simpl limited. do 2 f_equal. apply filter_ext. intros d. apply matches_bool.
Qed.

Lemma create_then_answer {A : Type} (c : string) (data : doc)
      (k : string -> A) (w : world) :
  let res := (ref ← create_document c data; mret (k ref)) w in
  environ res.2 = environ w /\ clock res.2 = clock w /\
  unchanged_or_appended c res w.
Proof.
  cbn zeta. rewrite bind_run, create_document_spec. unfold unchanged_or_appended.
  destruct (db w) as [b|] eqn:Hdb; [|by auto].
  cbn zeta. destruct (fault b) eqn:Hf; [by auto|].
  split; [done|]. split; [done|]. right.
  eexists b, _, _. repeat split; first [exact Hf | reflexivity].
Qed.

Lemma unchanged_or_appended_fmap {A B : Type} (f : A -> B) (c : string)
      (m : M A) (w w0 : world) :
  unchanged_or_appended c (m w) w0 ->
  unchanged_or_appended c ((f <$> m) w) w0.
Proof.
  unfold unchanged_or_appended. rewrite fmap_full.
  destruct (m w) as [[a|e] w']; cbn [fst snd];
    (intros [H|(b & ds & x & H1 & H2 & H3 & H4)]; [by left|]);
    [right; by exists b, ds, (f a) | discriminate].
Qed.

Lemma dispatch_effect (isoformat : datetime -> string)
      (timestamp_int : datetime -> Z) (r : route) (w : world) :
  let res := dispatch isoformat timestamp_int r w in
  environ res.2 = environ w /\ clock res.2 = clock w /\
  (db res.2 = db w \/
   (is_get r = false /\
    exists cls, schema_of r = Some cls /\
                unchanged_or_appended (collection_name cls) res w) \/
   (exists payload b msg ds,
       r = POST_admin_import_menu payload /\
       db w = Some b /\ fault b = Some msg /\
       db res.2 = Some (stored b "menuitem" ds))).
Proof.
  cbn zeta. destruct r; cbn [dispatch is_get schema_of].
  - by auto.
  - rewrite fmap_full, get_menu_spec. by destruct (construct_all _ _ _); auto.
  - rewrite fmap_full, get_specials_spec. by destruct (construct_all _ _ _); auto.
  - rewrite fmap_full, get_gallery_spec. by destruct (construct_all _ _ _); auto.
  - rewrite fmap_full, get_testimonials_spec.
    by destruct (construct_all _ _ _); auto.
  - rewrite !fmap_run. unfold submit_contact.
    destruct (create_then_answer (collection_name ContactMessage)
                (ContactMessage.model_dump payload)
                (fun ref => (<["status" := VStr "ok"]>
                               (<["reference" := VStr ref]> ∅) : doc)) w)
      as (He & Hc & Hs).
    split; [exact He|]. split; [exact Hc|]. right; left. split; [done|].
    exists ContactMessage. split; [done|]. by apply unchanged_or_appended_fmap.
  - rewrite !fmap_run. unfold submit_reservation. rewrite bind_run.
    destruct (truthy_bool _); rewrite ?bind_run; unfold utcnow;
      cbn [mret M_ret];
      match goal with
      | |- context [(create_document ?c ?d
                       ≫= fun ref => mret (<["status" := VStr "ok"]>
                            (<["reference" := VStr ref]>
                            (<["payment_reference" := ?pr]> ∅)))) ?w0] =>
          destruct (create_then_answer c d
                      (fun ref => (<["status" := VStr "ok"]>
                                     (<["reference" := VStr ref]>
                                     (<["payment_reference" := pr]> ∅)) : doc))
                      w0)
            as (He & Hc & Hs)
      end;
      (split; [exact He|]; split; [exact Hc|]; right; left; split; [done|];
       exists Reservation; split; [done|];
       by apply unchanged_or_appended_fmap).
  - rewrite !fmap_run. unfold track_analytics. rewrite bind_run. unfold utcnow.
    match goal with
    | |- context [(create_document ?c ?d ≫= ?k) ?w0] =>
        destruct (create_then_answer c d
                    (fun ref => (<["status" := VStr "ok"]>
                                   (<["ref" := VStr ref]> ∅) : doc)) w0)
          as (He & Hc & Hs)
    end.
    split; [exact He|]. split; [exact Hc|]. right; left. split; [done|].
    exists AnalyticsEvent. split; [done|]. by apply unchanged_or_appended_fmap.
  - rewrite fmap_full, import_menu_run.
    destruct (db w) as [b|] eqn:Hdb; [|by auto]. cbn zeta.
    destruct (MenuImport.items payload) as [|it items];
      [cbn [snd db environ clock advance record_call]; rewrite Hdb; by auto|].
    destruct (fault b) as [msg|] eqn:Hf.
    + destruct (take (cut b) _) as [|d ds];
        cbn [snd db environ clock advance record_call set_db];
        [rewrite Hdb; by auto|].
      split; [done|]. split; [done|]. right; right.
      by exists payload, b, msg, (d :: ds).
    + split; [done|]. split; [done|]. right; left. split; [done|].
      exists MenuItem. split; [done|]. right.
      eexists b, _, _.
      repeat split; first [exact Hdb | exact Hf | reflexivity].
  - rewrite fmap_full, list_reservations_run.
    by destruct (sort_created_desc _ w).1; auto.
  - rewrite fmap_full, test_database_run. by auto.
Qed.

(** A request that fails has written nothing, with one exception: a bulk
    import cut short by the store.  For every other route the database after
    a failure is the database before it. *)
Theorem failure_writes_only_in_bulk_import
        (isoformat : datetime -> string) (timestamp_int : datetime -> Z)
        (r : route) (w : world) (e : exn) :
  (dispatch isoformat timestamp_int r w).1 = Raise e ->
  db (dispatch isoformat timestamp_int r w).2 = db w \/
  exists payload b ds,
    r = POST_admin_import_menu payload /\ db w = Some b /\
    db (dispatch isoformat timestamp_int r w).2
      = Some (stored b "menuitem" ds).
Proof.
  intros He.
  destruct (dispatch_effect isoformat timestamp_int r w)
    as (_ & _ & [H|[(_ & cls & _ & [H|(b & ds & a & _ & _ & Ha & _)])
                   |(payload & b & msg & ds & Hr & Hdb & _ & H)]]).
  - by left.
  - by left.
  - congruence.
  - right. by exists payload, b, ds.
Qed.

(** The API is append-only: whatever the route and the state of the store,
    the records a read can see in any collection afterwards are those it
    could see before, in the same order, possibly followed by new ones.
    Nothing is updated in place or deleted. *)
Theorem store_is_append_only
        (isoformat : datetime -> string) (timestamp_int : datetime -> Z)
        (r : route) (w : world) (c : string) :
  exists new,
    visible (dispatch isoformat timestamp_int r w).2 c = visible w c ++ new.
Proof.
  unfold visible.
  destruct (dispatch_effect isoformat timestamp_int r w)
    as (_ & _ & [H|[(_ & cls & _ & [H|(b & ds & a & Hdb & Hf & _ & H)])
                   |(payload & b & msg & ds & _ & Hdb & Hf & H)]]);
    rewrite H; try (exists []; by rewrite app_nil_r).
  - rewrite Hdb. cbn [fault stored]. rewrite Hf.
    destruct (decide (collection_name cls = c)) as [<-|Hne].
    + eexists. apply records_stored.
    + exists []. by rewrite records_stored_ne, app_nil_r.
  - rewrite Hdb. cbn [fault stored]. rewrite Hf. by exists [].
Qed.

(** Every route keeps to its own collection: a [GET] route leaves the
    database untouched, and no route changes what a read can see in a
    collection other than the one named after its schema. *)
Theorem routes_keep_to_their_collection
        (isoformat : datetime -> string) (timestamp_int : datetime -> Z)
        (r : route) (w : world) :
  (is_get r = true -> db (dispatch isoformat timestamp_int r w).2 = db w) /\
  (forall c,
     (forall cls, schema_of r = Some cls -> c <> collection_name cls) ->
     visible (dispatch isoformat timestamp_int r w).2 c = visible w c).
Proof.
  destruct (dispatch_effect isoformat timestamp_int r w)
    as (_ & _ & [H|[(Hget & cls & Hcls & [H|(b & ds & a & Hdb & Hf & _ & H)])
                   |(payload & b & msg & ds & Hr & Hdb & Hf & H)]]).
  - split; [done|]. intros c _. unfold visible. by rewrite H.
  - split; [done|]. intros c _. unfold visible. by rewrite H.
  - split; [congruence|]. intros c Hc. unfold visible. rewrite H, Hdb.
    cbn [fault stored]. rewrite Hf.
    apply records_stored_ne. intros E. by apply (Hc cls Hcls).
  - split; [by rewrite Hr|]. intros c _. unfold visible. rewrite H, Hdb.
    cbn [fault stored]. by rewrite Hf.
Qed.

(** ** Further properties: the public listings *)

Lemma testimonial_construct_inv (d : doc) (m : Testimonial.t) :
  Testimonial.construct (delete "_id" d) = Some m ->
  testimonial_valid m /\
  (has_bool d "featured" true = true -> Testimonial.featured m = true).
Proof.
  unfold Testimonial.construct, req_str, fld_int, fld_bool, testimonial_valid.
  rewrite !lookup_delete_ne by done. intros H. split.
  - destruct (d !! "name") as [[]|]; try discriminate. simpl in H.
    destruct (d !! "rating") as [[| |z| | | | | |]|]; try discriminate;
      simpl in H.
    + destruct (in_range 1 5 z) eqn:E; try discriminate. simpl in H.
      destruct (d !! "comment") as [[]|]; try discriminate. simpl in H.
      destruct (opt_str _ "avatar_url" None); try discriminate. simpl in H.
      destruct (d !! "featured") as [[]|]; try discriminate; simpl in H;
        injection H as <-; exact E.
    + destruct (d !! "comment") as [[]|]; try discriminate. simpl in H.
      destruct (opt_str _ "avatar_url" None); try discriminate. simpl in H.
      destruct (d !! "featured") as [[]|]; try discriminate; simpl in H;
        by injection H as <-.
  - intros Hf. apply has_bool_true in Hf. rewrite Hf in H.
    simplify_option_eq. done.
Qed.

(** [GET /api/testimonials] lists featured testimonials only: every
    testimonial it returns is featured and has a rating between 1 and 5, and
    there is one for each stored record whose [featured] field is true. *)
Theorem testimonials_featured_only (w : world) (l : list Testimonial.t) :
  (get_testimonials w).1 = Ok l ->
  Forall (fun t => Testimonial.featured t = true /\ testimonial_valid t) l /\
  length l = length (List.filter (fun d => has_bool d "featured" true)
                                 (visible w "testimonial")).
Proof.
  rewrite get_testimonials_spec. cbn [fst]. intros Hl.
  apply construct_all_Ok in Hl. split.
  - eapply Forall2_transfer; [|exact Hl|apply Forall_filter_true].
    intros d m Hd Hf. simpl in Hf.
    apply testimonial_construct_inv in Hd as [Hv Hfe]. by auto.
  - symmetry. by eapply Forall2_length.
Qed.

(** [GET /api/gallery] returns one image per stored record, in store order,
    each with the [url] of its record. *)
Theorem gallery_in_store_order (w : world) (l : list GalleryImage.t) :
  (get_gallery w).1 = Ok l ->
  Forall2 (fun d g => d !! "url" = Some (VStr (GalleryImage.url g)))
          (visible w "galleryimage") l.
Proof.
  rewrite get_gallery_spec. cbn [fst]. intros Hl.
  apply construct_all_Ok in Hl.
  eapply Forall2_impl; [exact Hl|]. intros d g Hd. simpl in Hd.
  unfold GalleryImage.construct, req_str in Hd.
  rewrite lookup_delete_ne in Hd by done.
  destruct (d !! "url") as [[]|]; try discriminate. simpl in Hd.
  destruct (opt_str _ "caption" None); try discriminate. simpl in Hd.
  destruct (opt_int _ "order" _ _); try discriminate. simpl in Hd.
  by injection Hd as <-.
Qed.

(** ** Further properties: the reservation listing *)

(** No record returned by [GET /admin/reservations] carries the store's
    identifier: the [_id] key is removed from every one of them. *)
Theorem reservations_without_identifier
        (limit : Z) (w : world) (out : list doc) :
  (list_reservations limit w).1 = Ok out ->
  Forall (fun d => d !! "_id" = None) out.
Proof.
  rewrite list_reservations_run. cbn [fst]. intros H.
  apply sort_created_desc_Ok in H as (Hp & _). rewrite Hp.
  unfold fetched_reservations. apply Forall_fmap, Forall_true.
  intros d. apply lookup_delete_eq.
Qed.


Lemma skey_lt_same_kind (a b : skey) (r : bool) :
  skey_lt a b = Some r -> kind a = kind b.
Proof. by destruct a, b. Qed.

Lemma sort_desc_one_kind (l s : list (skey * doc)) (p q : skey * doc) :
  sort_desc l = Some s -> p ∈ l -> q ∈ l -> kind p.1 = kind q.1.
Proof.
  intros Es Hp Hq. pose proof (sort_desc_sorted _ _ Es) as Hs.
  rewrite <- (sort_desc_perm _ _ Es) in Hp, Hq.
  apply list_elem_of_lookup in Hp as [i Hi].
  apply list_elem_of_lookup in Hq as [j Hj].
  destruct (lt_eq_lt_dec i j) as [[Hij|Heq]|Hij]; [|subst j|].
  - by apply (skey_lt_same_kind _ _ false),
             (StronglySorted_lookup_lt key_ge s i j).
  - rewrite Hi in Hj. by injection Hj as ->.
  - symmetry. by apply (skey_lt_same_kind _ _ false),
                       (StronglySorted_lookup_lt key_ge s j i).
Qed.

Lemma decorated_elem (out : list doc) (keys : list skey) (d : doc) :
  Forall2 (fun d k => sortable (sort_value d) = Some k) out keys ->
  d ∈ out ->
  exists k, (k, d) ∈ zip keys out /\ sortable (sort_value d) = Some k.
Proof.
  induction 1 as [|x k out keys Hx _ IH]; [by intros ?%elem_of_nil|].
  intros [->|Hd]%elem_of_cons; simpl.
  - exists k. split; [by left|done].
  - destruct (IH Hd) as (k' & Hk & Hs). exists k'. split; [by right|done].
Qed.

Lemma number_kind (v : value) (k : skey) :
  is_number v = true -> sortable v = Some k -> kind k = 3.
Proof.
  destruct v as [| | |f| | | | |]; try done; simpl.
  - by intros _ [= <-].
  - by intros _ [= <-].
  - destruct (float_num f); [|done]. by intros _ [= <-].
Qed.

(** Two fetched records whose sort keys are of two kinds, such as a
    datetime, which a record without [created_at] counts as, and a string,
    make the sort of [GET /admin/reservations] raise [TypeError]: nothing is
    listed. *)
Theorem reservations_of_two_kinds_fail
        (limit : Z) (w : world) (d1 d2 : doc) (k1 k2 : skey) :
  d1 ∈ fetched_reservations limit w ->
  d2 ∈ fetched_reservations limit w ->
  sortable (sort_value d1) = Some k1 ->
  sortable (sort_value d2) = Some k2 ->
  kind k1 <> kind k2 ->
  (list_reservations limit w).1 = Raise TypeError.
Proof.
  rewrite list_reservations_run. cbn [fst].
  generalize (fetched_reservations limit w). intros out H1 H2 E1 E2 Hk.
  unfold sort_created_desc. destruct out as [|x0 [|y0 r0]].
  - by apply elem_of_nil in H1.
  - apply list_elem_of_singleton in H1, H2. subst. congruence.
  - set (out := x0 :: y0 :: r0) in *.
    destruct (mapM (fun x => sortable (sort_value x)) out) as [keys|] eqn:Ek.
    + destruct (sort_desc (zip keys out)) as [s|] eqn:Es; [exfalso|done].
      apply mapM_Some in Ek.
      destruct (decorated_elem _ _ _ Ek H1) as (a & Ha & Ea).
      destruct (decorated_elem _ _ _ Ek H2) as (c & Hc & Ec).
      pose proof (sort_desc_one_kind _ _ _ _ Es Ha Hc) as Hkk.
      simpl in Hkk. congruence.
    + destruct (_ || _) eqn:Eu; [exfalso|done].
      apply orb_prop in Eu as [Eu|Eu]; apply forallb_Forall in Eu;
        rewrite Forall_forall in Eu;
        pose proof (Eu _ H1) as N1; pose proof (Eu _ H2) as N2; cbn beta in *.
      * rewrite (number_kind _ _ N1 E1), (number_kind _ _ N2 E2) in Hk. done.
      * destruct (sort_value d1); done.
Qed.

(** ** Further properties: diagnostics *)

(** The [database] and [connection_status] fields of [GET /test] in the three
    states of the store.  Without a handle the text is the "not initialized"
    one; with an answering store it is "Connected & Working" and the first
    ten collection names are listed; with a failing store it is the error
    preview and no collection is listed.  The initial text "Not Available"
    is never returned. *)
Theorem diagnostics_three_states (w : world) :
  exists resp,
    (test_database w).1 = Ok resp /\
    resp !! "database" <> Some (VStr "❌ Not Available") /\
    match db w with
    | None =>
        resp !! "database" = Some (VStr "⚠️  Available but not initialized") /\
        resp !! "connection_status" = Some (VStr "Not Connected") /\
        resp !! "collections" = Some (VList [])
    | Some b =>
        resp !! "connection_status" = Some (VStr "Connected") /\
        match fault b with
        | None =>
            resp !! "database" = Some (VStr "✅ Connected & Working") /\
            resp !! "collections" =
              Some (VList (VStr <$> take 10 (map_to_list (collections b)).*1))
        | Some msg =>
            resp !! "database" =
              Some (VStr ("⚠️  Connected but Error: " +:+ py_prefix 50 msg)) /\
            resp !! "collections" = Some (VList [])
        end
    end.
Proof.
  eexists. rewrite test_database_run. cbn [fst]. split; [reflexivity|].
  destruct (db w) as [b|]; [destruct (fault b) as [msg|]|].
  - split; [|repeat split; reflexivity].
    intros H. vm_compute in H. discriminate.
  - split; [|repeat split; reflexivity].
    intros H. vm_compute in H. discriminate.
  - split; [|repeat split; reflexivity].
    intros H. vm_compute in H. discriminate.
Qed.

(** The snapshot never discloses the name of the database: the value read
    from [db.name] is overwritten before the snapshot is returned, so two
    databases that differ only in their name give the same snapshot. *)
Theorem diagnostics_hide_database_name (w : world) (b : database) (n : string) :
  db w = Some b ->
  (test_database (set_db (with_db_name n b) w)).1 = (test_database w).1.
Proof.
  intros Hdb. rewrite !test_database_run. cbn [fst db set_db environ].
  rewrite Hdb. cbn [fault with_db_name collections].
  f_equal.
  destruct (fault b); cbn [db_name];
    rewrite ?(insert_insert_ne _ "database_name") by done;
    by rewrite ?insert_insert_eq.
Qed.

Lemma py_prefix_whole (n : nat) (s : string) :
  py_len s <= n -> py_prefix n s = s.
Proof.
  revert n. induction s as [|c r IH]; intros n; simpl; [done|].
  destruct (is_cont c); intros H; [by rewrite IH|].
  destruct n as [|n]; [lia|]. rewrite IH; [done|lia].
Qed.

Lemma py_prefix_split (n : nat) (s : string) :
  exists rest, s = py_prefix n s +:+ rest.
Proof.
  revert n. induction s as [|c r IH]; intros n; simpl.
  - by exists "".
  - destruct (is_cont c).
    + destruct (IH n) as [rest Hr]. exists rest.
      change (String c r = String c (py_prefix n r +:+ rest)). by f_equal.
    + destruct n as [|n]; [by exists (String c r)|].
      destruct (IH n) as [rest Hr]. exists rest.
      change (String c r = String c (py_prefix n r +:+ rest)). by f_equal.
Qed.

(** The error text [GET /test] shows is the beginning of the store's message:
    the message is the preview followed by what was cut, and a message of at
    most fifty characters is shown whole. *)
Theorem diagnostics_error_preview (w : world) (b : database) (msg : string) :
  db w = Some b -> fault b = Some msg ->
  exists resp preview rest,
    (test_database w).1 = Ok resp /\
    resp !! "database" =
      Some (VStr ("⚠️  Connected but Error: " +:+ preview)) /\
    msg = preview +:+ rest /\
    (py_len msg <= 50 -> rest = "").
Proof.
  intros Hdb Hf. destruct (py_prefix_split 50 msg) as [rest Hrest].
  eexists _, (py_prefix 50 msg), rest.
  rewrite test_database_run, Hdb, Hf. cbn [fst].
  split; [reflexivity|]. split; [reflexivity|]. split; [exact Hrest|].
  intros Hlen. rewrite (py_prefix_whole 50 msg Hlen) in Hrest.
  clear -Hrest. revert Hrest. generalize msg as s.
  induction s as [|c s IH]; simpl; intros H; [by destruct rest|].
  injection H as H. by apply IH.
Qed.

(** ** Further properties: the form handlers *)

Lemma reservation_reference_overwritten (v : value) (pr : option string)
      (payload : ReservationRequest.t) :
  <["payment_reference" := v]>
    (ReservationRequest.model_dump (with_payment_reference pr payload))
  = <["payment_reference" := v]> (ReservationRequest.model_dump payload).
Proof.
  unfold ReservationRequest.model_dump, Reservation.model_dump,
    with_payment_reference. simpl.
  rewrite !(insert_insert_ne _ "payment_reference") by done.
  by rewrite !insert_insert_eq.
Qed.

Lemma submit_reservation_ignores_reference
      (timestamp_int : datetime -> Z) (pr : option string)
      (payload : ReservationRequest.t) (w : world) :
  submit_reservation timestamp_int (with_payment_reference pr payload) w
  = submit_reservation timestamp_int payload w.
Proof.
  unfold submit_reservation. rewrite !bind_run.
  change (ReservationRequest.pay_now (with_payment_reference pr payload))
    with (ReservationRequest.pay_now payload).
  destruct (truthy_bool (ReservationRequest.pay_now payload));
    rewrite ?bind_run; unfold utcnow; cbn [mret M_ret];
    by rewrite !bind_run, reservation_reference_overwritten.
Qed.

(** The payment reference of a booking is the server's alone: in a connected,
    answering store the stored record holds the very [payment_reference] the
    answer reports, whatever [payment_reference] the request body carried,
    while [paid] is stored as the request gave it. *)
Theorem reservation_reference_is_server_set
        (timestamp_int : datetime -> Z) (payload : ReservationRequest.t)
        (w : world) (b : database) :
  db w = Some b -> fault b = None ->
  exists resp w' rec,
    submit_reservation timestamp_int payload w = (Ok resp, w') /\
    visible w' "reservation" = visible w "reservation" ++ [rec] /\
    rec !! "payment_reference" = resp !! "payment_reference" /\
    rec !! "paid" =
      Some (VBool (Reservation.paid (ReservationRequest.base payload))) /\
    forall pr,
      submit_reservation timestamp_int (with_payment_reference pr payload) w
      = (Ok resp, w').
Proof.
  intros Hdb Hf.
  assert (exists resp w' rec,
    submit_reservation timestamp_int payload w = (Ok resp, w') /\
    visible w' "reservation" = visible w "reservation" ++ [rec] /\
    rec !! "payment_reference" = resp !! "payment_reference" /\
    rec !! "paid" =
      Some (VBool (Reservation.paid (ReservationRequest.base payload))))
    as (resp & w' & rec & Hrun & Hrest).
  { unfold submit_reservation. rewrite bind_run.
    destruct (truthy_bool (ReservationRequest.pay_now payload));
      rewrite ?bind_run; unfold utcnow; cbn [mret M_ret];
      rewrite bind_run, create_document_spec; cbn [db tick record_call];
      rewrite Hdb; cbn zeta; rewrite Hf;
      rewrite stamps_fresh by reflexivity;
      (do 3 eexists; split; [reflexivity|]);
      unfold visible; cbn [db set_db fault stored]; rewrite Hdb, Hf;
      (split; [change (collection_name Reservation) with "reservation";
               rewrite records_stored; reflexivity|]);
      split; reflexivity. }
  exists resp, w', rec. split; [exact Hrun|].
  destruct Hrest as (H1 & H2 & H3).
  split; [exact H1|]. split; [exact H2|]. split; [exact H3|].
  intros pr. rewrite submit_reservation_ignores_reference. exact Hrun.
Qed.

(** A contact message is stored as sent: in a connected, answering store
    [POST /api/contact] appends one record whose fields, the identifier and
    the two timestamps left aside, are those of the message, and answers [ok]
    with the reference of that very record. *)
Theorem contact_is_stored_as_sent
        (payload : ContactMessage.t) (w : world) (b : database) :
  db w = Some b -> fault b = None ->
  exists w' rec oid,
    submit_contact payload w =
      (Ok (<["status" := VStr "ok"]>
             (<["reference" := VStr (str_of_oid oid)]> ∅)), w') /\
    visible w' "contactmessage" = visible w "contactmessage" ++ [rec] /\
    payload_of rec = ContactMessage.model_dump payload /\
    rec !! "_id" = Some (VOid oid).
Proof.
  intros Hdb Hf. unfold submit_contact.
  rewrite bind_run, create_document_spec, Hdb. cbn zeta. rewrite Hf.
  rewrite stamps_fresh by reflexivity.
  eexists _, _, (next_oid b). split; [reflexivity|].
  unfold visible; cbn [db set_db fault stored]; rewrite Hdb, Hf.
  split; [change (collection_name ContactMessage) with "contactmessage";
          rewrite records_stored; reflexivity|].
  split.
  - unfold payload_of, ContactMessage.model_dump. apply map_eq. intros k.
    destruct (decide (k = "_id")) as [->|]; [by simplify_map_eq|].
    destruct (decide (k = "created_at")) as [->|]; [by simplify_map_eq|].
    destruct (decide (k = "updated_at")) as [->|]; [by simplify_map_eq|].
    by rewrite lookup_delete_ne, lookup_delete_ne, lookup_delete_ne,
      lookup_insert_ne, lookup_insert_ne, lookup_insert_ne.
  - rewrite N.add_0_r. by simplify_map_eq.
Qed.

(** ** Further properties: collection names *)

(** Distinct schemas get distinct collections: the lower-cased class name
    determines the schema, so no two of the eight schemas share storage. *)
Theorem collection_name_injective (a b : model_cls) :
  collection_name a = collection_name b -> a = b.
Proof.
  destruct a, b; intros H; try reflexivity; vm_compute in H; discriminate.
Qed.

(** ** The further properties at the sample data *)

Lemma menu_item_ignores_other_keys_witness :
  MenuItem.construct
    (<["created_at" := VDate 7%N]> (MenuItem.model_dump margherita))
  = MenuItem.construct (MenuItem.model_dump margherita).
Proof.
  apply (menu_item_ignores_other_keys
           (<["created_at" := VDate 7%N]> (MenuItem.model_dump margherita))
           (MenuItem.model_dump margherita)).
  unfold menu_item_fields.
  repeat (apply Forall_cons; split; [reflexivity|]). constructor.
Defined.

Lemma menu_item_defaults_witness :
  MenuItem.construct
    (<["name" := VStr "Tiramisu"]>
       (<["price" := VFloat (S754_zero false)]>
          (<["category" := VStr "Desserts"]> ∅)))
  = Some (MenuItem.Build "Tiramisu" None (S754_zero false) "Desserts" None
                         false true).
Proof.
  apply (menu_item_defaults _ "Tiramisu" "Desserts" (S754_zero false));
    reflexivity.
Defined.

Lemma import_menu_without_database_witness :
  import_menu (MenuImport.Build [margherita]) offline_world =
  (Raise (HTTPException 500 "Database not available"), offline_world).
Proof.
  apply (import_menu_without_database (MenuImport.Build [margherita])
           offline_world).
  reflexivity.
Defined.

Lemma import_menu_empty_payload_witness :
  (import_menu (MenuImport.Build []) failing_world).1 =
    Ok (<["message" := VStr "Imported 0 menu items"]> ∅) /\
  db (import_menu (MenuImport.Build []) failing_world).2 = Some failing_db.
Proof.
  apply (import_menu_empty_payload failing_world failing_db). reflexivity.
Defined.

Lemma import_menu_store_error_witness :
  exists b',
    (import_menu (MenuImport.Build [margherita; tiramisu]) dropping_world).1
      = Raise (StoreError "connection lost") /\
    db (import_menu (MenuImport.Build [margherita; tiramisu])
                    dropping_world).2 = Some b' /\
    records b' "menuitem" =
      records dropping_db "menuitem" ++
      with_ids (next_oid dropping_db)
        (take (cut dropping_db)
              (stamped (clock dropping_world) (ticks dropping_world)
                       [margherita; tiramisu])) /\
    (cut dropping_db = 0 -> b' = dropping_db).
Proof.
  apply (import_menu_store_error (MenuImport.Build [margherita; tiramisu])
           dropping_world dropping_db "connection lost");
    [reflexivity|reflexivity|discriminate].
Defined.

Lemma import_menu_counts_and_stamps_witness :
  exists new,
    (import_menu (MenuImport.Build [margherita; margherita]) sample_world).1 =
      Ok (<["message" :=
             VStr ("Imported " +:+ str_of_nat 2 +:+ " menu items")]> ∅) /\
    ticks (import_menu (MenuImport.Build [margherita; margherita])
                       sample_world).2 = 2 * 2 + 0 /\
    visible (import_menu (MenuImport.Build [margherita; margherita])
                         sample_world).2 "menuitem"
      = visible sample_world "menuitem" ++ new /\
    length new = 2 /\
    Forall (fun d => exists a c,
              d !! "created_at" = Some (VDate a) /\
              d !! "updated_at" = Some (VDate c) /\ (a <= c)%N) new.
Proof.
  apply (import_menu_counts_and_stamps
           (MenuImport.Build [margherita; margherita]) sample_world sample_db);
    [reflexivity|reflexivity|].
  intros i j Hij. simpl. lia.
Defined.

Lemma import_then_filtered_listing_witness :
  (get_menu (Some "Pizzas") (Some true)
     (import_menu (MenuImport.Build [margherita]) sample_world).2).1 =
    Ok ([] ++ List.filter (item_selected (Some "Pizzas") (Some true))
                          [margherita]).
Proof.
  apply (import_then_filtered_listing (MenuImport.Build [margherita])
           sample_world sample_db (Some "Pizzas") (Some true) []).
  - reflexivity.
  - reflexivity.
  - constructor; [reflexivity|constructor].
  - vm_compute; reflexivity.
Defined.

Lemma failure_writes_only_in_bulk_import_witness :
  db (dispatch (fun t => str_of_Z (Z.of_N t)) (fun t => Z.of_N t)
        (POST_api_contact sample_contact) failing_world).2
    = db failing_world \/
  exists payload b ds,
    POST_api_contact sample_contact = POST_admin_import_menu payload /\
    db failing_world = Some b /\
    db (dispatch (fun t => str_of_Z (Z.of_N t)) (fun t => Z.of_N t)
          (POST_api_contact sample_contact) failing_world).2
      = Some (stored b "menuitem" ds).
Proof.
  apply (failure_writes_only_in_bulk_import (fun t => str_of_Z (Z.of_N t))
           (fun t => Z.of_N t) (POST_api_contact sample_contact) failing_world
           (WriteFailure "connection refused")).
  vm_compute; reflexivity.
Defined.

Lemma testimonials_featured_only_witness :
  Forall (fun t => Testimonial.featured t = true /\ testimonial_valid t)
         [Testimonial.Build "Asha" 5 "Superb" None true] /\
  length [Testimonial.Build "Asha" 5 "Superb" None true] =
  length (List.filter (fun d => has_bool d "featured" true)
                      (visible review_world "testimonial")).
Proof.
  apply (testimonials_featured_only review_world
           [Testimonial.Build "Asha" 5 "Superb" None true]).
  vm_compute; reflexivity.
Defined.

Lemma gallery_in_store_order_witness :
  Forall2 (fun d g => d !! "url" = Some (VStr (GalleryImage.url g)))
          (visible gallery_world "galleryimage")
          [GalleryImage.Build "https://example.org/a.jpg" None (Some 1%Z)].
Proof.
  apply (gallery_in_store_order gallery_world
           [GalleryImage.Build "https://example.org/a.jpg" None (Some 1%Z)]).
  vm_compute; reflexivity.
Defined.

Lemma reservations_without_identifier_witness :
  Forall (fun d => d !! "_id" = None)
         [delete "_id" unstamped_booking; delete "_id" earliest_booking].
Proof.
  apply (reservations_without_identifier 100 earliest_world
           [delete "_id" unstamped_booking; delete "_id" earliest_booking]).
  vm_compute; reflexivity.
Defined.


Lemma reservations_of_two_kinds_fail_witness :
  (list_reservations 100 clashing_world).1 = Raise TypeError.
Proof.
  apply (reservations_of_two_kinds_fail 100 clashing_world
           (delete "_id" unstamped_booking) (delete "_id" iso_booking)
           (KDate datetime_min) (KStr "2025-03-01T19:30:00")).
  - change (fetched_reservations 100 clashing_world)
      with [delete "_id" unstamped_booking; delete "_id" iso_booking].
    by left.
  - change (fetched_reservations 100 clashing_world)
      with [delete "_id" unstamped_booking; delete "_id" iso_booking].
    right. by left.
  - reflexivity.
  - reflexivity.
  - discriminate.
Defined.

Lemma diagnostics_hide_database_name_witness :
  (test_database (set_db (with_db_name "other" sample_db) sample_world)).1
  = (test_database sample_world).1.
Proof.
  apply (diagnostics_hide_database_name sample_world sample_db "other").
  reflexivity.
Defined.

Lemma diagnostics_error_preview_witness :
  exists resp preview rest,
    (test_database failing_world).1 = Ok resp /\
    resp !! "database" =
      Some (VStr ("⚠️  Connected but Error: " +:+ preview)) /\
    "connection refused" = preview +:+ rest /\
    (py_len "connection refused" <= 50 -> rest = "").
Proof.
  apply (diagnostics_error_preview failing_world failing_db
           "connection refused"); reflexivity.
Defined.

Lemma reservation_reference_is_server_set_witness :
  exists resp w' rec,
    submit_reservation (fun t => Z.of_N t) sample_booking sample_world
      = (Ok resp, w') /\
    visible w' "reservation" = visible sample_world "reservation" ++ [rec] /\
    rec !! "payment_reference" = resp !! "payment_reference" /\
    rec !! "paid" = Some (VBool false) /\
    forall pr,
      submit_reservation (fun t => Z.of_N t)
                         (with_payment_reference pr sample_booking)
                         sample_world
      = (Ok resp, w').
Proof.
  apply (reservation_reference_is_server_set (fun t => Z.of_N t)
           sample_booking sample_world sample_db); reflexivity.
Defined.

Lemma contact_is_stored_as_sent_witness :
  exists w' rec oid,
    submit_contact sample_contact sample_world =
      (Ok (<["status" := VStr "ok"]>
             (<["reference" := VStr (str_of_oid oid)]> ∅)), w') /\
    visible w' "contactmessage" = visible sample_world "contactmessage" ++ [rec] /\
    payload_of rec = ContactMessage.model_dump sample_contact /\
    rec !! "_id" = Some (VOid oid).
Proof.
  apply (contact_is_stored_as_sent sample_contact sample_world sample_db);
    reflexivity.
Defined.

Lemma collection_name_injective_witness : Reservation = Reservation.
Proof.
  apply (collection_name_injective Reservation Reservation). reflexivity.
Defined.
